(** * check_materialization.py: the materialization audit, embedded in Rocq

    The script polls a fleet of CAVE datastacks, compares the latest active
    materialization version of each with the latest version counting expired
    ones, and prints a table.  The embedding keeps the script's functions and
    names.  The remote services and the wall clock are an oracle ([World]);
    every call that leaves the process is recorded in a log, so that "no
    network call" and "the clock is read once" are statements about the log. *)

From Stdlib Require Import ZArith String Ascii List Bool Lia Permutation Sorted.
From Stdlib Require Import Orders Mergesort DecimalString DecimalZ Eqdep_dec.
Import ListNotations.

Local Open Scope string_scope.
Local Open Scope list_scope.
Local Open Scope Z_scope.

(** ** Python values used by the script *)

Module Py.

(** [str(n)] for an [int]. *)
Definition str_int (n : Z) : string := NilZero.string_of_int (Z.to_int n).

(** Instances of [Exception] that the remote calls and the builtins raise. *)
Inductive exn : Type :=
| ValueError (msg : string)
| HTTPError (msg : string)
| OtherException (name msg : string).

(** [max(xs)] on a list of integers: [ValueError] on the empty list. *)
Definition max (xs : list Z) : exn + Z :=
  match xs with
  | [] => inl (ValueError "max() arg is an empty sequence")
  | x :: rest => inr (fold_left Z.max rest x)
  end.

(** [str(v)] where [v] is [None] or an object whose printed form is known. *)
Definition str_obj (v : option string) : string :=
  match v with
  | None => "None"
  | Some repr => repr
  end.

End Py.

(** ** [datetime.date], [datetime.datetime] and [timedelta] *)

Module Datetime.

Definition _is_leap (year : Z) : bool :=
  (year mod 4 =? 0) && (negb (year mod 100 =? 0) || (year mod 400 =? 0)).

Definition _days_before_year (year : Z) : Z :=
  let y := year - 1 in
  y * 365 + y / 4 - y / 100 + y / 400.

Definition _DAYS_IN_MONTH : list Z :=
  [-1; 31; 28; 31; 30; 31; 30; 31; 31; 30; 31; 30; 31].

Definition _days_in_month (year month : Z) : Z :=
  if (month =? 2) && _is_leap year then 29
  else nth (Z.to_nat month) _DAYS_IN_MONTH 0.

Definition _DAYS_BEFORE_MONTH : list Z :=
  [-1; 0; 31; 59; 90; 120; 151; 181; 212; 243; 273; 304; 334].

Definition _days_before_month (year month : Z) : Z :=
  nth (Z.to_nat month) _DAYS_BEFORE_MONTH 0
  + (if (2 <? month) && _is_leap year then 1 else 0).

Definition _ymd2ord (year month day : Z) : Z :=
  _days_before_year year + _days_before_month year month + day.

Definition MINYEAR : Z := 1.
Definition MAXYEAR : Z := 9999.

(** The checks of [_check_date_fields]. *)
Definition check_date_fields (year month day : Z) : bool :=
  (MINYEAR <=? year) && (year <=? MAXYEAR)
  && (1 <=? month) && (month <=? 12)
  && (1 <=? day) && (day <=? _days_in_month year month).

(** A [date] object exists only if its fields passed the constructor's
    checks. *)
Record date : Type := mk_date {
  year : Z;
  month : Z;
  day : Z;
  date_fields_ok : check_date_fields year month day = true
}.

Record timedelta : Type := mk_timedelta {
  days : Z;
  seconds : Z;
  microseconds : Z
}.

Definition toordinal (d : date) : Z := _ymd2ord (year d) (month d) (day d).

(** [date.__sub__] on two dates. *)
Definition date_sub (a b : date) : timedelta :=
  mk_timedelta (toordinal a - toordinal b) 0 0.

(** [date.__le__]: the tuples (year, month, day) compared in order. *)
Definition date_le (a b : date) : bool :=
  (year a <? year b)
  || ((year a =? year b)
      && ((month a <? month b)
          || ((month a =? month b) && (day a <=? day b)))).

Record datetime : Type := mk_datetime {
  dt_date : date;
  hour : Z;
  minute : Z;
  second : Z;
  microsecond : Z
}.

(** [datetime.date()]. *)
Definition date_of (t : datetime) : date := dt_date t.

(** Left padding with zeros up to [width] characters. *)
Fixpoint zfill_aux (n : nat) (s : string) : string :=
  match n with
  | O => s
  | S n' => String "0" (zfill_aux n' s)
  end.

Definition zfill (width : nat) (s : string) : string :=
  zfill_aux (width - String.length s) s.

(** [d.strftime("%Y-%m-%d")], the year on four digits. *)
Definition strftime_Ymd (d : date) : string :=
  (zfill 4 (Py.str_int (year d)) ++ "-"
   ++ zfill 2 (Py.str_int (month d)) ++ "-"
   ++ zfill 2 (Py.str_int (day d)))%string.

End Datetime.

(** ** [sorted] on lists of [str] *)

(** Python compares [str] values code point by code point; on the bytes of a
    UTF-8 string that is the byte-wise lexicographic order [String.leb]. *)
Module StringOrder <: TotalLeBool.
Definition t := string.
Definition leb := String.leb.
Definition leb_total : forall a b, leb a b = true \/ leb b a = true :=
  String.leb_total.
End StringOrder.

Module StringSort := Sort StringOrder.

Definition sorted (xs : list string) : list string := StringSort.sort xs.

(** ** [rich]: styled text and tables *)

Module Rich.

(** [text.Text]: the plain text and the styles applied by [stylize]. *)
Record Text : Type := mk_Text {
  plain : string;
  spans : list string
}.

Definition stylize (style : string) (t : Text) : Text :=
  mk_Text (plain t) (spans t ++ [style]).

Record Column : Type := mk_Column {
  header : string;
  justify : string
}.

(** [table.Table]. *)
Record Table : Type := mk_Table {
  title : string;
  columns : list Column;
  rows : list (list Text)
}.

Definition add_column (name just : string) (t : Table) : Table :=
  mk_Table (title t) (columns t ++ [mk_Column name just]) (rows t).

Definition add_row (row : list Text) (t : Table) : Table :=
  mk_Table (title t) (columns t) (rows t ++ [row]).

(** What [Console.print] is given. *)
Inductive renderable : Type :=
| RStr (s : string)
| RTable (t : Table).

End Rich.

(** ** [str.strip] *)

Definition is_space (c : ascii) : bool :=
  let n := nat_of_ascii c in
  (Nat.eqb n 32 || (Nat.leb 9 n && Nat.leb n 13)
   || (Nat.leb 28 n && Nat.leb n 31))%bool.

Fixpoint lstrip (s : string) : string :=
  match s with
  | String c rest => if is_space c then lstrip rest else s
  | EmptyString => EmptyString
  end.

Fixpoint string_rev (s : string) : string :=
  match s with
  | String c rest => (string_rev rest ++ String c EmptyString)%string
  | EmptyString => EmptyString
  end.

Definition strip (s : string) : string :=
  string_rev (lstrip (string_rev (lstrip s))).

(** The one-character string of a line feed. *)
Definition nl : string := String (ascii_of_nat 10) EmptyString.

(** ** The remote services, the clock and the log of calls *)

Module Remote.
Import Py Datetime Rich.

(** A [CAVEclient] object: how it was built and the server it resolved. *)
Record client : Type := mk_client {
  datastack_name : option string;
  server_address : option string;
  local_server : string
}.

(** Everything that leaves the process. *)
Inductive event : Type :=
| EPrint (s : string)
| ENow
| ENewClient (datastack_name server_address : option string)
| EGetVersions (c : client) (expired : bool)
| EGetTimestamp (c : client) (version : Z)
| EServerVersion (c : client)
| EGetDatastacks (c : client)
| EConsolePrint (r : renderable).

(** The answers of the outside world.  The clock depends on the moment it is
    read (the number of calls made so far); the services answer a given
    request the same way throughout one run. *)
Record World : Type := mk_World {
  w_now : nat -> datetime;
  w_CAVEclient : option string -> option string -> exn + string;
  w_get_versions : client -> bool -> exn + list Z;
  w_get_timestamp : client -> Z -> exn + datetime;
  w_server_version : client -> exn + option string;
  w_get_datastacks : client -> exn + list string
}.

(** The log, latest call first. *)
Definition log : Type := list event.

(** Computations that call out, may raise, and extend the log. *)
Definition M (A : Type) : Type := log -> (exn + A) * log.

Definition ret {A} (a : A) : M A := fun l => (inr a, l).

Definition raise {A} (e : exn) : M A := fun l => (inl e, l).

Definition bind {A B} (m : M A) (k : A -> M B) : M B :=
  fun l =>
    match m l with
    | (inr a, l') => k a l'
    | (inl e, l') => (inl e, l')
    end.

(** [try: body  except Exception: handler]. *)
Definition try_except {A} (body : M A) (handler : exn -> M A) : M A :=
  fun l =>
    match body l with
    | (inr a, l') => (inr a, l')
    | (inl e, l') => handler e l'
    end.

(** A call to the outside: logged, then answered. *)
Definition call {A} (e : event) (answer : exn + A) : M A :=
  fun l => (answer, e :: l).

(** A builtin that may raise, without any call. *)
Definition lift {A} (r : exn + A) : M A := fun l => (r, l).

End Remote.

Declare Scope py_scope.
Delimit Scope py_scope with py.
Notation "x <- m ;; k" := (Remote.bind m (fun x => k))
  (at level 61, m at next level, right associativity) : py_scope.
Notation "' pat <- m ;; k" :=
  (Remote.bind m (fun x => match x with pat => k end))
  (at level 61, pat pattern, m at next level, right associativity) : py_scope.
Notation "m ;; k" := (Remote.bind m (fun _ => k))
  (at level 61, right associativity) : py_scope.

(** ** The script *)

Module Script.
Import Py Datetime Rich Remote.
Local Open Scope py_scope.

(** The module's configuration constants. *)
Record Config : Type := mk_Config {
  SERVERS_TO_CHECK : list string;
  DATASTACKS_TO_CHECK : list string
}.

(** The values the script ships with. *)
Definition source_config : Config :=
  mk_Config
    ["https://global.daf-apis.com"; "https://globalv1.em.brain.allentech.org"]
    [].

Definition TABLE_COLUMNS : list Column :=
  [ mk_Column "Datastack" "left";
    mk_Column "Server" "left";
    mk_Column "Server Version" "left";
    mk_Column "Expected Version" "left";
    mk_Column "Latest Version" "left";
    mk_Column "Latest Timestamp" "left";
    mk_Column "Days Old" "left";
    mk_Column "Status" "left" ].

Record style_config : Type := mk_style {
  color : string;
  style : string
}.

Definition STYLE_CONFIG_success : style_config := mk_style "green" "".
Definition STYLE_CONFIG_failure : style_config := mk_style "red" "bold".

Section WithWorld.
Variable w : World.

(** [datetime.datetime.now()]. *)
Definition now : M datetime :=
  fun l => (inr (w_now w (List.length l)), ENow :: l).

Definition print (s : string) : M unit := call (EPrint s) (inr tt).

Definition console_print (r : renderable) : M unit :=
  call (EConsolePrint r) (inr tt).

(** [CAVEclient(datastack_name, server_address)]. *)
Definition CAVEclient (datastack_name server_address : option string)
  : M client :=
  call (ENewClient datastack_name server_address)
       (match w_CAVEclient w datastack_name server_address with
        | inl e => inl e
        | inr srv => inr (mk_client datastack_name server_address srv)
        end).

Definition get_versions (c : client) (expired : bool) : M (list Z) :=
  call (EGetVersions c expired) (w_get_versions w c expired).

Definition get_timestamp (c : client) (version : Z) : M datetime :=
  call (EGetTimestamp c version) (w_get_timestamp w c version).

Definition server_version (c : client) : M (option string) :=
  call (EServerVersion c) (w_server_version w c).

Definition get_datastacks (c : client) : M (list string) :=
  call (EGetDatastacks c) (w_get_datastacks w c).

(** The tuple [check_materialization] returns. *)
Definition check_result : Type :=
  (option Z * option Z * option datetime * string * option string)%type.

(** The body of the [try] block. *)
Definition check_materialization_try (c : client)
  : M (option Z * option Z * option datetime * option string) :=
  versions <- get_versions c false ;;
  latest_version <- lift (max versions) ;;
  versions_expired <- get_versions c true ;;
  expected_latest_version <- lift (max versions_expired) ;;
  latest_timestamp <- get_timestamp c latest_version ;;
  sv <- server_version c ;;
  ret (Some latest_version, Some expected_latest_version,
       Some latest_timestamp, Some (str_obj sv)).

Definition check_materialization (datastack : string) : M check_result :=
  c <- CAVEclient (Some datastack) None ;;
  '(latest_version, expected_latest_version, latest_timestamp, sv) <-
    try_except (check_materialization_try c)
               (fun _ => ret (None, None, None, None)) ;;
  ret (latest_version, expected_latest_version, latest_timestamp,
       local_server c, sv).

(** The [for server in SERVERS_TO_CHECK] loop; [tqdm.tqdm] yields the items of
    its argument and draws a progress bar, which is not modelled. *)
Fixpoint fetch_datastacks (servers : list string)
    (datastacks_to_check : list string) : M (list string) :=
  match servers with
  | [] => ret datastacks_to_check
  | server :: rest =>
      c <- CAVEclient None (Some server) ;;
      listed <- get_datastacks c ;;
      fetch_datastacks rest (datastacks_to_check ++ sorted listed)
  end.

Definition get_datastacks_to_check (cfg : Config) : M (list string) :=
  match DATASTACKS_TO_CHECK cfg with
  | [] => fetch_datastacks (SERVERS_TO_CHECK cfg) []
  | _ :: _ => ret (sorted (DATASTACKS_TO_CHECK cfg))
  end.

End WithWorld.

Definition get_style_config (success : bool) : style_config :=
  if success then STYLE_CONFIG_success else STYLE_CONFIG_failure.

Definition create_styled_text (value : string) (sc : style_config) : Text :=
  let styled_text := mk_Text value [] in
  let style_str := strip (style sc ++ " " ++ color sc)%string in
  match style_str with
  | EmptyString => styled_text
  | _ => stylize style_str styled_text
  end.

Definition format_row_data
    (datastack server server_version : string)
    (latest_version expected_latest_version : Z)
    (latest_timestamp : datetime) (current_day : date) (success : bool)
  : list Text :=
  let sc := get_style_config success in
  let days_old := days (date_sub current_day (date_of latest_timestamp)) in
  let formatted_timestamp := strftime_Ymd (date_of latest_timestamp) in
  let status_message := if success then "Success" else "Failed" in
  [ create_styled_text datastack sc;
    create_styled_text server sc;
    create_styled_text server_version sc;
    create_styled_text (str_int expected_latest_version) sc;
    create_styled_text (str_int latest_version) sc;
    create_styled_text formatted_timestamp sc;
    create_styled_text (str_int days_old) sc;
    create_styled_text status_message sc ].

Definition create_result_table : Table :=
  fold_left (fun t column => add_column (header column) (justify column) t)
            TABLE_COLUMNS
            (mk_Table "Materialization Check Results" [] []).

Section Main.
Variable w : World.

(** One iteration of the [for datastack in datastacks_to_check] loop of
    [main].  [format_row_data] is typed as annotated in the source; passing
    it [None] (which [check_materialization] never does next to a version
    that is not [None]) is an error raised in the callee. *)
Definition audit_datastack (current_day : date) (result_table : Table)
    (datastack : string) : M Table :=
  '(latest_version, expected_latest_version, latest_timestamp, server, sv) <-
    check_materialization w datastack ;;
  match latest_version with
  | None => ret result_table
  | Some lv =>
      match expected_latest_version, latest_timestamp, sv with
      | Some ev, Some ts, Some sver =>
          let success := lv =? ev in
          let row_data :=
            format_row_data datastack server sver lv ev ts current_day
                            success in
          ret (add_row row_data result_table)
      | _, _, _ =>
          raise (OtherException "TypeError" "None passed to format_row_data")
      end
  end.

(** The loop itself. *)
Fixpoint audit_loop (current_day : date) (datastacks_to_check : list string)
    (result_table : Table) : M Table :=
  match datastacks_to_check with
  | [] => ret result_table
  | datastack :: rest =>
      result_table' <- audit_datastack current_day result_table datastack ;;
      audit_loop current_day rest result_table'
  end.

Definition main (cfg : Config) : M unit :=
  print nl ;;
  t <- now w ;;
  let current_day := date_of t in
  let result_table := create_result_table in
  datastacks_to_check <- get_datastacks_to_check w cfg ;;
  result_table' <- audit_loop current_day datastacks_to_check result_table ;;
  console_print (RStr nl) ;;
  console_print (RTable result_table').

End Main.

End Script.

(** ** Vocabulary of the statements *)

Module Audit.
Import Py Datetime Rich Remote Script.

(** The client [check_materialization] builds for a datastack, when the
    construction does not raise. *)
Definition client_of (w : World) (datastack : string) : exn + client :=
  match w_CAVEclient w (Some datastack) None with
  | inl e => inl e
  | inr srv => inr (mk_client (Some datastack) None srv)
  end.

(** The four fetches of the [try] block all answer. *)
Definition fetched (w : World) (c : client)
    (lv ev : Z) (ts : datetime) (sv : option string) : Prop :=
  exists vs evs,
    w_get_versions w c false = inr vs /\ max vs = inr lv /\
    w_get_versions w c true = inr evs /\ max evs = inr ev /\
    w_get_timestamp w c lv = inr ts /\
    w_server_version w c = inr sv.

(** One of the fetches of the [try] block raises: a request fails, or a
    version list comes back empty and [max] raises. *)
Definition fetch_step_raises (w : World) (c : client) : Prop :=
  (exists e, w_get_versions w c false = inl e) \/
  w_get_versions w c false = inr [] \/
  (exists e, w_get_versions w c true = inl e) \/
  w_get_versions w c true = inr [] \/
  (exists vs lv e, w_get_versions w c false = inr vs /\ max vs = inr lv /\
                   w_get_timestamp w c lv = inl e) \/
  (exists e, w_server_version w c = inl e).

(** The shape of the tuple returned on the [except] path. *)
Definition sentinel (srv : string) : check_result :=
  (None, None, None, srv, None).

(** Cells of a row, by column. *)
Definition cell (i : nat) (row : list Text) : string :=
  plain (nth i row (mk_Text "" [])).

Definition col_datastack : nat := 0.
Definition col_server : nat := 1.
Definition col_server_version : nat := 2.
Definition col_expected_version : nat := 3.
Definition col_latest_version : nat := 4.
Definition col_latest_timestamp : nat := 5.
Definition col_days_old : nat := 6.
Definition col_status : nat := 7.

(** [row] is the row the audit writes for [datastack] when its check goes
    through, the reference day being [current_day]. *)
Definition reported (w : World) (current_day : date) (datastack : string)
    (row : list Text) : Prop :=
  exists c lv ev ts sv,
    client_of w datastack = inr c /\ fetched w c lv ev ts sv /\
    row = format_row_data datastack (local_server c) (str_obj sv) lv ev ts
                          current_day (lv =? ev).

(** The rows of a run over a sequence of datastacks whose clients can all be
    built: one row per datastack whose fetches answer, none for the others. *)
Inductive report_rows (w : World) (current_day : date)
  : list string -> list (list Text) -> Prop :=
| rr_nil : report_rows w current_day [] []
| rr_omit ds c dss rs :
    client_of w ds = inr c -> fetch_step_raises w c ->
    report_rows w current_day dss rs ->
    report_rows w current_day (ds :: dss) rs
| rr_row ds row dss rs :
    reported w current_day ds row ->
    report_rows w current_day dss rs ->
    report_rows w current_day (ds :: dss) (row :: rs).

(** What one server lists, building its client first. *)
Definition listing (w : World) (server : string) : exn + list string :=
  match w_CAVEclient w None (Some server) with
  | inl e => inl e
  | inr srv => w_get_datastacks w (mk_client None (Some server) srv)
  end.

(** Lexicographic order on [str], and sortedness for it. *)
Definition str_le (a b : string) : Prop := String.leb a b = true.

Definition is_network_call (e : event) : bool :=
  match e with
  | ENewClient _ _ | EGetVersions _ _ | EGetTimestamp _ _
  | EServerVersion _ | EGetDatastacks _ => true
  | EPrint _ | ENow | EConsolePrint _ => false
  end.

(** A computation whose result does not depend on the log it starts from. *)
Definition log_independent {A} (m : M A) : Prop :=
  forall l1 l2, fst (m l1) = fst (m l2).

(** A computation that only extends the log, and only with network calls:
    it neither reads the clock nor prints. *)
Definition only_network_calls {A} (m : M A) : Prop :=
  forall l, exists added,
    snd (m l) = added ++ l /\ Forall (fun e => is_network_call e = true) added.

End Audit.

(** ** A small fleet to run the script on *)

Module Fleet.
Import Py Datetime Rich Remote Script.

Definition day_2024_03_09 : date := mk_date 2024 3 9 eq_refl.
Definition day_2024_03_10 : date := mk_date 2024 3 10 eq_refl.
Definition day_2024_03_01 : date := mk_date 2024 3 1 eq_refl.

(** The clock passes midnight after the third call. *)
Definition clock (n : nat) : datetime :=
  if Nat.ltb n 3 then mk_datetime day_2024_03_09 23 59 59 0
  else mk_datetime day_2024_03_10 0 0 1 0.

Definition name_is (o : option string) (s : string) : bool :=
  match o with
  | Some x => String.eqb x s
  | None => false
  end.

(** [ds1] is up to date, [ds2] lags behind, [ds3] fails on its first fetch,
    [empty] has no version yet, [gone] cannot be resolved.  Server [A] lists
    two datastacks, server [B] one, any other server is unreachable. *)
Definition fleet : World :=
  mk_World
    clock
    (fun dn sa =>
       if name_is dn "gone" then inl (HTTPError "404 datastack not found")
       else inr "https://local.example")
    (fun c expired =>
       if name_is (datastack_name c) "ds1" then inr [5]
       else if name_is (datastack_name c) "ds2"
            then inr (if expired then [3; 5] else [3])
       else if name_is (datastack_name c) "ds3"
            then inl (HTTPError "503 service unavailable")
       else if name_is (datastack_name c) "empty" then inr []
       else inr [1])
    (fun c v =>
       if name_is (datastack_name c) "ds1"
       then inr (mk_datetime day_2024_03_09 8 0 0 0)
       else inr (mk_datetime day_2024_03_01 8 0 0 0))
    (fun c => inr (Some "4.30.1"))
    (fun c =>
       if name_is (server_address c) "A" then inr ["zeta"; "alpha"]
       else if name_is (server_address c) "B" then inr ["beta"]
       else inl (HTTPError "connection refused")).

Definition local_client (ds : string) : client :=
  mk_client (Some ds) None "https://local.example".

End Fleet.

(** ** Vocabulary for the calls made and the styles applied *)

Module Observe.
Import Py Datetime Rich Remote Script Audit.


(** The check of a datastack goes through: it returns a latest version. *)
Definition check_ok (w : World) (datastack : string) : bool :=
  match fst (check_materialization w datastack []) with
  | inr (Some _, _, _, _, _) => true
  | _ => false
  end.

(** The calls a check makes when nothing fails, in the order it makes them;
    the timestamp is asked for the largest active version. *)
Definition planned_calls (w : World) (datastack : string) : list event :=
  let srv := match w_CAVEclient w (Some datastack) None with
             | inr srv => srv
             | inl _ => EmptyString
             end in
  let c := mk_client (Some datastack) None srv in
  let lv := match w_get_versions w c false with
            | inr vs => match max vs with inr m => m | inl _ => 0 end
            | inl _ => 0
            end in
  [ ENewClient (Some datastack) None;
    EGetVersions c false;
    EGetVersions c true;
    EGetTimestamp c lv;
    EServerVersion c ].

(** The step of a check that a call belongs to raises: the call itself
    fails, or it lists no version and [max] raises on the result. *)
Definition step_fails (w : World) (e : event) : bool :=
  match e with
  | ENewClient dn sa =>
      match w_CAVEclient w dn sa with inl _ => true | inr _ => false end
  | EGetVersions c expired =>
      match w_get_versions w c expired with
      | inl _ | inr [] => true
      | inr (_ :: _) => false
      end
  | EGetTimestamp c v =>
      match w_get_timestamp w c v with inl _ => true | inr _ => false end
  | EServerVersion c =>
      match w_server_version w c with inl _ => true | inr _ => false end
  | EGetDatastacks c =>
      match w_get_datastacks w c with inl _ => true | inr _ => false end
  | EPrint _ | ENow | EConsolePrint _ => false
  end.

(** The elements of a list up to the first one that satisfies [p], that one
    included. *)
Fixpoint upto_first {A} (p : A -> bool) (xs : list A) : list A :=
  match xs with
  | [] => []
  | x :: rest => if p x then [x] else x :: upto_first p rest
  end.

Definition is_new_client (e : event) : bool :=
  match e with
  | ENewClient _ _ => true
  | _ => false
  end.

(** The server a call names, for the calls of the enumerator. *)
Definition event_server (e : event) : option string :=
  match e with
  | ENewClient None sa => sa
  | EGetDatastacks c =>
      match datastack_name c with
      | None => server_address c
      | Some _ => None
      end
  | _ => None
  end.


End Observe.

(** * Properties *)

(** ** Calendar arithmetic *)

Module DatetimeFacts.
Import Datetime.

Lemma is_leap_spec (y : Z) :
  _is_leap y = true <-> (y mod 4 = 0 /\ (y mod 100 <> 0 \/ y mod 400 = 0)).
Proof.
  unfold _is_leap.
  rewrite andb_true_iff, orb_true_iff, negb_true_iff, !Z.eqb_eq, Z.eqb_neq.
  tauto.
Qed.

(** A year has 365 days, 366 when it is a leap year. *)
Lemma days_before_year_succ (y : Z) :
  _days_before_year (y + 1)
  = _days_before_year y + 365 + (if _is_leap y then 1 else 0).
Proof.
  unfold _days_before_year; cbv zeta.
  replace (y + 1 - 1) with y by lia.
  destruct (_is_leap y) eqn:L.
  - apply is_leap_spec in L. Z.div_mod_to_equations. lia.
  - assert (N : ~ (y mod 4 = 0 /\ (y mod 100 <> 0 \/ y mod 400 = 0))).
    { rewrite <- is_leap_spec, L. discriminate. }
    Z.div_mod_to_equations. lia.
Qed.

Lemma days_before_year_mono (a b : Z) :
  a <= b -> _days_before_year a <= _days_before_year b.
Proof.
  unfold _days_before_year; cbv zeta. intros H.
  Z.div_mod_to_equations. lia.
Qed.

Lemma month_cases (m : Z) :
  1 <= m <= 12 ->
  m = 1 \/ m = 2 \/ m = 3 \/ m = 4 \/ m = 5 \/ m = 6 \/
  m = 7 \/ m = 8 \/ m = 9 \/ m = 10 \/ m = 11 \/ m = 12.
Proof. lia. Qed.

(** Evaluation of the month tables at a literal month. *)
Ltac month_tables :=
  cbv [_days_in_month _days_before_month nth Z.to_nat Pos.to_nat Pos.iter_op
       Init.Nat.add _DAYS_IN_MONTH _DAYS_BEFORE_MONTH Z.eqb Z.ltb Z.compare
       Pos.compare Pos.compare_cont Pos.eqb andb] in *.

Lemma check_date_fields_spec (y m d : Z) :
  check_date_fields y m d = true ->
  1 <= y <= 9999 /\ 1 <= m <= 12 /\ 1 <= d <= _days_in_month y m.
Proof.
  unfold check_date_fields, MINYEAR, MAXYEAR.
  rewrite !andb_true_iff, !Z.leb_le. lia.
Qed.

(** The day of the year of a date lies within its year. *)
Lemma day_of_year_bounds (y m d : Z) :
  1 <= m <= 12 -> 1 <= d <= _days_in_month y m ->
  1 <= _days_before_month y m + d
    <= 365 + (if _is_leap y then 1 else 0).
Proof.
  intros Hm Hd. apply month_cases in Hm.
  destruct (_is_leap y) eqn:L;
    repeat (destruct Hm as [-> | Hm]); try subst m;
    month_tables; rewrite ?L in *; lia.
Qed.

(** Within a year, a later month or a later day is a later day of the year. *)
Lemma day_of_year_lt (y m1 d1 m2 d2 : Z) :
  1 <= m1 <= 12 -> 1 <= d1 <= _days_in_month y m1 ->
  1 <= m2 <= 12 -> 1 <= d2 <= _days_in_month y m2 ->
  m1 < m2 ->
  _days_before_month y m1 + d1 < _days_before_month y m2 + d2.
Proof.
  intros Hm1 Hd1 Hm2 Hd2 Hlt.
  apply month_cases in Hm1. apply month_cases in Hm2.
  destruct (_is_leap y) eqn:L;
    repeat (destruct Hm1 as [-> | Hm1]); try subst m1;
    repeat (destruct Hm2 as [-> | Hm2]); try subst m2;
    try lia; month_tables; rewrite ?L in *; lia.
Qed.

Lemma ordinal_year_lt (a b : date) :
  year a < year b -> toordinal a < toordinal b.
Proof.
  intros Hy. unfold toordinal, _ymd2ord.
  destruct (check_date_fields_spec _ _ _ (date_fields_ok a)) as (_ & Hma & Hda).
  destruct (check_date_fields_spec _ _ _ (date_fields_ok b)) as (_ & Hmb & Hdb).
  pose proof (day_of_year_bounds _ _ _ Hma Hda) as Ba.
  pose proof (day_of_year_bounds _ _ _ Hmb Hdb) as Bb.
  pose proof (days_before_year_succ (year a)) as S.
  pose proof (days_before_year_mono (year a + 1) (year b) ltac:(lia)) as Mo.
  lia.
Qed.

(** Two [date] objects with the same fields are the same object. *)
Lemma date_ext (a b : date) :
  year a = year b -> month a = month b -> day a = day b -> a = b.
Proof.
  destruct a as [ya ma da oka], b as [yb mb db okb]; cbn.
  intros -> -> ->. f_equal. apply UIP_dec, bool_dec.
Qed.

(** [toordinal] is strictly increasing for the order of [date]. *)
Lemma ordinal_lt_cases (a b : date) :
  (year a < year b \/
   (year a = year b /\ (month a < month b \/
                        (month a = month b /\ day a < day b)))) ->
  toordinal a < toordinal b.
Proof.
  intros [Hy | [Hy [Hm | [Hm Hd]]]].
  - now apply ordinal_year_lt.
  - unfold toordinal, _ymd2ord. rewrite Hy.
    destruct (check_date_fields_spec _ _ _ (date_fields_ok a)) as (_ & Hma & Hda).
    destruct (check_date_fields_spec _ _ _ (date_fields_ok b)) as (_ & Hmb & Hdb).
    rewrite Hy in Hda.
    pose proof (day_of_year_lt _ _ _ _ _ Hma Hda Hmb Hdb Hm). lia.
  - unfold toordinal, _ymd2ord. rewrite Hy, Hm. lia.
Qed.

Lemma date_trichotomy (a b : date) :
  toordinal a < toordinal b \/ a = b \/ toordinal b < toordinal a.
Proof.
  destruct (Z.lt_trichotomy (year a) (year b)) as [H | [Hy | H]].
  - left. apply ordinal_lt_cases. lia.
  - destruct (Z.lt_trichotomy (month a) (month b)) as [H | [Hm | H]].
    + left. apply ordinal_lt_cases. lia.
    + destruct (Z.lt_trichotomy (day a) (day b)) as [H | [Hd | H]].
      * left. apply ordinal_lt_cases. lia.
      * right; left. now apply date_ext.
      * right; right. apply ordinal_lt_cases. lia.
    + right; right. apply ordinal_lt_cases. lia.
  - right; right. apply ordinal_lt_cases. lia.
Qed.

Lemma toordinal_inj (a b : date) : toordinal a = toordinal b -> a = b.
Proof.
  intros E. destruct (date_trichotomy a b) as [H | [H | H]]; [lia | exact H | lia].
Qed.

Lemma date_le_spec (a b : date) :
  date_le a b = true <-> toordinal a <= toordinal b.
Proof.
  unfold date_le.
  rewrite !orb_true_iff, !andb_true_iff, !orb_true_iff, !andb_true_iff,
    !Z.ltb_lt, !Z.eqb_eq, Z.leb_le.
  split.
  - intros H.
    destruct (Z.eq_dec (day a) (day b)) as [Ed | Nd].
    + destruct H as [H | [Hy [H | [Hm _]]]];
        try (apply Z.lt_le_incl, ordinal_lt_cases; lia).
      rewrite (date_ext a b Hy Hm Ed). lia.
    + apply Z.lt_le_incl, ordinal_lt_cases. lia.
  - intros H. destruct (date_trichotomy a b) as [L | [E | L]]; [ | subst b; lia | lia].
    destruct (Z.lt_trichotomy (year a) (year b)) as [Hy | [Hy | Hy]]; [lia | | ].
    + destruct (Z.lt_trichotomy (month a) (month b)) as [Hm | [Hm | Hm]]; [lia | | ].
      * destruct (Z_le_gt_dec (day a) (day b)); [lia | ].
        assert (toordinal b < toordinal a) by (apply ordinal_lt_cases; lia). lia.
      * assert (toordinal b < toordinal a) by (apply ordinal_lt_cases; lia). lia.
    + assert (toordinal b < toordinal a) by (apply ordinal_lt_cases; lia). lia.
Qed.

End DatetimeFacts.

(** ** The computations: results and logs *)

Module MonadFacts.
Import Py Rich Remote Script Audit.

Section Independence.
Context {A B : Type}.

Lemma li_ret (a : A) : log_independent (ret a).
Proof. intros l1 l2; reflexivity. Qed.

Lemma li_raise (e : exn) : log_independent (@raise A e).
Proof. intros l1 l2; reflexivity. Qed.

Lemma li_lift (r : exn + A) : log_independent (lift r).
Proof. intros l1 l2; reflexivity. Qed.

Lemma li_call (ev : event) (r : exn + A) : log_independent (call ev r).
Proof. intros l1 l2; reflexivity. Qed.

Lemma li_bind (m : M A) (k : A -> M B) :
  log_independent m -> (forall a, log_independent (k a)) ->
  log_independent (bind m k).
Proof.
  intros Hm Hk l1 l2. unfold bind.
  specialize (Hm l1 l2).
  destruct (m l1) as [[e1 | a1] l1'], (m l2) as [[e2 | a2] l2'];
    cbn in Hm; try discriminate.
  - injection Hm as ->. reflexivity.
  - injection Hm as ->. apply Hk.
Qed.

Lemma li_try_except (body : M A) (handler : exn -> M A) :
  log_independent body -> (forall e, log_independent (handler e)) ->
  log_independent (try_except body handler).
Proof.
  intros Hb Hh l1 l2. unfold try_except.
  specialize (Hb l1 l2).
  destruct (body l1) as [[e1 | a1] l1'], (body l2) as [[e2 | a2] l2'];
    cbn in Hb; try discriminate.
  - injection Hb as ->. apply Hh.
  - exact Hb.
Qed.

End Independence.

Section NetworkOnly.
Context {A B : Type}.

Lemma rnc_ret (a : A) : only_network_calls (ret a).
Proof. intros l. exists []. split; [reflexivity | constructor]. Qed.

Lemma rnc_raise (e : exn) : only_network_calls (@raise A e).
Proof. intros l. exists []. split; [reflexivity | constructor]. Qed.

Lemma rnc_lift (r : exn + A) : only_network_calls (lift r).
Proof. intros l. exists []. split; [reflexivity | constructor]. Qed.

Lemma rnc_call (ev : event) (r : exn + A) :
  is_network_call ev = true -> only_network_calls (call ev r).
Proof.
  intros N l. exists [ev]. split; [reflexivity | ].
  constructor; [exact N | constructor].
Qed.

Lemma rnc_bind (m : M A) (k : A -> M B) :
  only_network_calls m -> (forall a, only_network_calls (k a)) ->
  only_network_calls (bind m k).
Proof.
  intros Hm Hk l. unfold bind.
  destruct (Hm l) as (ad1 & E1 & N1).
  destruct (m l) as [[e | a] l1]; cbn in E1; subst l1.
  - exists ad1. now split.
  - destruct (Hk a (ad1 ++ l)) as (ad2 & E2 & N2).
    exists (ad2 ++ ad1). rewrite E2, app_assoc. split; [reflexivity | ].
    apply Forall_app. now split.
Qed.

Lemma rnc_try_except (body : M A) (handler : exn -> M A) :
  only_network_calls body -> (forall e, only_network_calls (handler e)) ->
  only_network_calls (try_except body handler).
Proof.
  intros Hb Hh l. unfold try_except.
  destruct (Hb l) as (ad1 & E1 & N1).
  destruct (body l) as [[e | a] l1]; cbn in E1; subst l1.
  - destruct (Hh e (ad1 ++ l)) as (ad2 & E2 & N2).
    exists (ad2 ++ ad1). rewrite E2, app_assoc. split; [reflexivity | ].
    apply Forall_app. now split.
  - exists ad1. now split.
Qed.

End NetworkOnly.

(** Composition of the two properties along the structure of a computation. *)
Ltac structural :=
  repeat first
    [ apply li_ret | apply li_raise | apply li_lift | apply li_call
    | apply rnc_ret | apply rnc_raise | apply rnc_lift
    | apply rnc_call; reflexivity
    | apply li_bind | apply li_try_except
    | apply rnc_bind | apply rnc_try_except
    | intros [[[? ?] ?] ?] | intros ? ].

Section Calls.
Variable w : World.

Lemma li_check_materialization_try c :
  log_independent (check_materialization_try w c).
Proof.
  unfold check_materialization_try, get_versions, get_timestamp, server_version.
  structural.
Qed.

Lemma rnc_check_materialization_try c :
  only_network_calls (check_materialization_try w c).
Proof.
  unfold check_materialization_try, get_versions, get_timestamp, server_version.
  structural.
Qed.

Lemma li_check_materialization ds :
  log_independent (check_materialization w ds).
Proof.
  unfold check_materialization, CAVEclient.
  apply li_bind; [apply li_call | intros c].
  apply li_bind.
  - apply li_try_except; [apply li_check_materialization_try | intros; apply li_ret].
  - intros [[[? ?] ?] ?]. apply li_ret.
Qed.

Lemma rnc_check_materialization ds :
  only_network_calls (check_materialization w ds).
Proof.
  unfold check_materialization, CAVEclient.
  apply rnc_bind; [apply rnc_call; reflexivity | intros c].
  apply rnc_bind.
  - apply rnc_try_except;
      [apply rnc_check_materialization_try | intros; apply rnc_ret].
  - intros [[[? ?] ?] ?]. apply rnc_ret.
Qed.

Lemma li_audit_datastack cd t ds : log_independent (audit_datastack w cd t ds).
Proof.
  unfold audit_datastack.
  apply li_bind; [apply li_check_materialization | ].
  intros [[[[[lv | ] [ev | ]] [ts | ]] srv] [sv | ]]; structural.
Qed.

Lemma rnc_audit_datastack cd t ds : only_network_calls (audit_datastack w cd t ds).
Proof.
  unfold audit_datastack.
  apply rnc_bind; [apply rnc_check_materialization | ].
  intros [[[[[lv | ] [ev | ]] [ts | ]] srv] [sv | ]]; structural.
Qed.

Lemma li_audit_loop cd dss : forall t, log_independent (audit_loop w cd dss t).
Proof.
  induction dss as [ | ds dss IH]; intros t; cbn.
  - apply li_ret.
  - apply li_bind; [apply li_audit_datastack | intros t'; apply IH].
Qed.

Lemma rnc_audit_loop cd dss : forall t, only_network_calls (audit_loop w cd dss t).
Proof.
  induction dss as [ | ds dss IH]; intros t; cbn.
  - apply rnc_ret.
  - apply rnc_bind; [apply rnc_audit_datastack | intros t'; apply IH].
Qed.

Lemma rnc_fetch_datastacks servers :
  forall acc, only_network_calls (fetch_datastacks w servers acc).
Proof.
  induction servers as [ | s servers IH]; intros acc; cbn.
  - apply rnc_ret.
  - unfold CAVEclient, get_datastacks.
    apply rnc_bind; [apply rnc_call; reflexivity | intros c].
    apply rnc_bind; [apply rnc_call; reflexivity | intros listed]. apply IH.
Qed.

Lemma rnc_get_datastacks_to_check cfg :
  only_network_calls (get_datastacks_to_check w cfg).
Proof.
  unfold get_datastacks_to_check.
  destruct (DATASTACKS_TO_CHECK cfg); [apply rnc_fetch_datastacks | apply rnc_ret].
Qed.

End Calls.

End MonadFacts.

(** ** The staleness checker *)

Module Checker.
Import Py Datetime Rich Remote Script Audit MonadFacts.

(** [max] returns an element of the list that bounds all the others. *)
Lemma fold_max_spec (xs : list Z) :
  forall x, (x = fold_left Z.max xs x \/ In (fold_left Z.max xs x) xs)
            /\ x <= fold_left Z.max xs x
            /\ (forall y, In y xs -> y <= fold_left Z.max xs x).
Proof.
  induction xs as [ | a xs IH]; intros x; cbn.
  - split; [now left | split; [lia | intros y []]].
  - destruct (IH (Z.max x a)) as (Hin & Hle & Hall).
    split; [ | split].
    + destruct Hin as [E | Hin]; [ | now right; right].
      destruct (Z.max_spec x a) as [[_ Hm] | [_ Hm]]; rewrite <- E, Hm.
      * right; left. reflexivity.
      * left. reflexivity.
    + lia.
    + intros y [<- | Hy]; [lia | now apply Hall].
Qed.

Lemma max_spec (xs : list Z) (m : Z) :
  max xs = inr m -> In m xs /\ (forall y, In y xs -> y <= m).
Proof.
  destruct xs as [ | x xs]; cbn; [discriminate | ].
  intros [= <-]. destruct (fold_max_spec xs x) as (Hin & Hle & Hall).
  split.
  - destruct Hin as [E | Hin]; [left; exact E | now right].
  - intros y [<- | Hy]; [exact Hle | now apply Hall].
Qed.

Lemma max_nonempty (xs : list Z) : xs <> [] -> exists m, max xs = inr m.
Proof. destruct xs; [congruence | intros _; eexists; reflexivity]. Qed.

Section WithWorld.
Variable w : World.

(** Unfolding of the [try] block, one call after the other. *)
Lemma try_unfold c l :
  fst (check_materialization_try w c l) =
  match w_get_versions w c false with
  | inl e => inl e
  | inr vs =>
    match max vs with
    | inl e => inl e
    | inr lv =>
      match w_get_versions w c true with
      | inl e => inl e
      | inr evs =>
        match max evs with
        | inl e => inl e
        | inr ev =>
          match w_get_timestamp w c lv with
          | inl e => inl e
          | inr ts =>
            match w_server_version w c with
            | inl e => inl e
            | inr sv => inr (Some lv, Some ev, Some ts, Some (str_obj sv))
            end
          end
        end
      end
    end
  end.
Proof.
  unfold check_materialization_try, get_versions, get_timestamp,
    server_version, bind, call, lift, ret.
  destruct (w_get_versions w c false) as [e | vs]; [reflexivity | ].
  destruct (max vs) as [e | lv]; [reflexivity | ].
  destruct (w_get_versions w c true) as [e | evs]; [reflexivity | ].
  destruct (max evs) as [e | ev]; [reflexivity | ].
  destruct (w_get_timestamp w c lv) as [e | ts]; [reflexivity | ].
  destruct (w_server_version w c) as [e | sv]; reflexivity.
Qed.

Lemma try_fetched c lv ev ts sv l :
  fetched w c lv ev ts sv ->
  fst (check_materialization_try w c l)
  = inr (Some lv, Some ev, Some ts, Some (str_obj sv)).
Proof.
  intros (vs & evs & H1 & H2 & H3 & H4 & H5 & H6).
  now rewrite try_unfold, H1, H2, H3, H4, H5, H6.
Qed.

Lemma try_raises c l :
  fetch_step_raises w c ->
  exists e, fst (check_materialization_try w c l) = inl e.
Proof.
  intros H. rewrite try_unfold.
  destruct H as [(e & H) | [H | [(e & H) | [H | [(vs & lv & e & H1 & H2 & H3)
                                                | (e & H)]]]]].
  - rewrite H. eauto.
  - rewrite H. cbn. eauto.
  - rewrite H.
    destruct (w_get_versions w c false); eauto. destruct (max _); eauto.
  - rewrite H.
    destruct (w_get_versions w c false); eauto. destruct (max _); cbn; eauto.
  - rewrite H1, H2, H3.
    destruct (w_get_versions w c true) as [? | evs]; eauto.
    destruct (max evs); eauto.
  - rewrite H.
    destruct (w_get_versions w c false); eauto. destruct (max _); eauto.
    destruct (w_get_versions w c true); eauto. destruct (max _); eauto.
    destruct (w_get_timestamp w c _); eauto.
Qed.

(** Either every fetch answers or one of them raises. *)
Lemma fetch_dichotomy c :
  fetch_step_raises w c \/ exists lv ev ts sv, fetched w c lv ev ts sv.
Proof.
  unfold fetch_step_raises, fetched.
  destruct (w_get_versions w c false) as [e | vs] eqn:H1; [left; left; eauto | ].
  destruct vs as [ | v vs]; [left; right; left; reflexivity | ].
  destruct (max_nonempty (v :: vs)) as (lv & H2); [discriminate | ].
  destruct (w_get_versions w c true) as [e | evs] eqn:H3;
    [left; right; right; left; eauto | ].
  destruct evs as [ | v' evs]; [left; right; right; right; left; reflexivity | ].
  destruct (max_nonempty (v' :: evs)) as (ev & H4); [discriminate | ].
  destruct (w_get_timestamp w c lv) as [e | ts] eqn:H5.
  { left. do 4 right. left. exists (v :: vs), lv, e. auto. }
  destruct (w_server_version w c) as [e | sv] eqn:H6.
  { left. do 5 right. eauto. }
  right. exists lv, ev, ts, sv, (v :: vs), (v' :: evs). auto 10.
Qed.

Lemma fetched_excludes_raise c lv ev ts sv :
  fetched w c lv ev ts sv -> fetch_step_raises w c -> False.
Proof.
  intros F R.
  destruct (try_raises c [] R) as (e & He).
  rewrite (try_fetched _ _ _ _ _ [] F) in He. discriminate.
Qed.

(** Unfolding of [check_materialization]: the client is built first, outside
    the [try]; the [try] block runs next. *)
Lemma check_materialization_unfold ds l :
  fst (check_materialization w ds l) =
  match client_of w ds with
  | inl e => inl e
  | inr c =>
    match fst (check_materialization_try w c (ENewClient (Some ds) None :: l)) with
    | inr (a, b, t, s) => inr (a, b, t, local_server c, s)
    | inl _ => inr (sentinel (local_server c))
    end
  end.
Proof.
  unfold check_materialization, client_of, CAVEclient, bind, call, try_except.
  destruct (w_CAVEclient w (Some ds) None) as [e | srv]; [reflexivity | ].
  destruct (check_materialization_try w _ _) as [[e | [[[a b] t] s]] l'];
    reflexivity.
Qed.

Lemma check_materialization_record ds c lv ev ts sv l :
  client_of w ds = inr c -> fetched w c lv ev ts sv ->
  fst (check_materialization w ds l)
  = inr (Some lv, Some ev, Some ts, local_server c, Some (str_obj sv)).
Proof.
  intros Hc F.
  now rewrite check_materialization_unfold, Hc, (try_fetched _ _ _ _ _ _ F).
Qed.

Lemma check_materialization_sentinel ds c l :
  client_of w ds = inr c -> fetch_step_raises w c ->
  fst (check_materialization w ds l) = inr (sentinel (local_server c)).
Proof.
  intros Hc R. rewrite check_materialization_unfold, Hc.
  destruct (try_raises c (ENewClient (Some ds) None :: l) R) as (e & ->).
  reflexivity.
Qed.

Lemma check_materialization_no_client ds e l :
  client_of w ds = inl e -> fst (check_materialization w ds l) = inl e.
Proof. intros Hc. now rewrite check_materialization_unfold, Hc. Qed.

(** The three ways a check ends. *)
Lemma check_materialization_cases ds l :
  (exists e, client_of w ds = inl e
             /\ fst (check_materialization w ds l) = inl e)
  \/ (exists c, client_of w ds = inr c /\ fetch_step_raises w c
                /\ fst (check_materialization w ds l)
                   = inr (sentinel (local_server c)))
  \/ (exists c lv ev ts sv,
        client_of w ds = inr c /\ fetched w c lv ev ts sv
        /\ fst (check_materialization w ds l)
           = inr (Some lv, Some ev, Some ts, local_server c,
                  Some (str_obj sv))).
Proof.
  destruct (client_of w ds) as [e | c] eqn:Hc.
  - left. exists e. split; [reflexivity | now apply check_materialization_no_client].
  - right. destruct (fetch_dichotomy c) as [R | (lv & ev & ts & sv & F)].
    + left. exists c. auto using check_materialization_sentinel.
    + right. exists c, lv, ev, ts, sv.
      auto using check_materialization_record.
Qed.

End WithWorld.

End Checker.

(** ** [sorted] *)

Module SortedFacts.
Import Audit.

Lemma leb_cons (c1 c2 : ascii) (s1 s2 : string) :
  String.leb (String c1 s1) (String c2 s2) = true <->
  (N_of_ascii c1 < N_of_ascii c2)%N \/ (c1 = c2 /\ String.leb s1 s2 = true).
Proof.
  unfold String.leb; cbn [String.compare]. unfold Ascii.compare.
  destruct (N.compare_spec (N_of_ascii c1) (N_of_ascii c2)) as [E | L | G].
  - assert (c1 = c2) as ->.
    { rewrite <- (ascii_N_embedding c1), <- (ascii_N_embedding c2), E.
      reflexivity. }
    split; [intros H; right; now split | intros [H | [_ H]]; [lia | exact H]].
  - split; [now left | reflexivity].
  - split; [discriminate | intros [H | [-> _]]; lia].
Qed.

Lemma leb_nil_l (s : string) : String.leb EmptyString s = true.
Proof. now destruct s. Qed.

Lemma leb_nil_r (s : string) : String.leb s EmptyString = true -> s = EmptyString.
Proof. destruct s; [reflexivity | discriminate]. Qed.

Lemma str_le_trans (a b c : string) : str_le a b -> str_le b c -> str_le a c.
Proof.
  unfold str_le. revert b c.
  induction a as [ | x a IH]; intros b c Hab Hbc; [apply leb_nil_l | ].
  destruct b as [ | y b]; [discriminate | ].
  destruct c as [ | z c]; [discriminate | ].
  apply leb_cons in Hab. apply leb_cons in Hbc. apply leb_cons.
  destruct Hab as [Hab | [-> Hab]], Hbc as [Hbc | [-> Hbc]].
  - left; lia.
  - now left.
  - now left.
  - right. split; [reflexivity | now apply (IH b)].
Qed.

Lemma str_le_antisym (a b : string) : str_le a b -> str_le b a -> a = b.
Proof. apply String.leb_antisym. Qed.

Lemma sorted_StronglySorted (xs : list string) :
  StronglySorted str_le (sorted xs).
Proof.
  apply Sorted_StronglySorted.
  - intros a b c. apply str_le_trans.
  - apply StringSort.Sorted_sort.
Qed.

Lemma sorted_Permutation (xs : list string) : Permutation xs (sorted xs).
Proof. apply StringSort.Permuted_sort. Qed.

(** A list has one sorted arrangement only: whatever the algorithm behind
    [sorted], its result is this one. *)
Lemma sorted_arrangement_unique (l1 : list string) :
  forall l2, Permutation l1 l2 ->
             StronglySorted str_le l1 -> StronglySorted str_le l2 -> l1 = l2.
Proof.
  induction l1 as [ | a l1 IH]; intros l2 P S1 S2.
  - now apply Permutation_nil in P.
  - destruct l2 as [ | b l2].
    { apply Permutation_sym, Permutation_nil in P. discriminate. }
    apply StronglySorted_inv in S1 as [S1 F1].
    apply StronglySorted_inv in S2 as [S2 F2].
    rewrite Forall_forall in F1, F2.
    assert (a = b) as ->.
    { assert (Ha : In a (b :: l2)).
      { apply (Permutation_in _ P). now left. }
      assert (Hb : In b (a :: l1)).
      { apply (Permutation_in _ (Permutation_sym P)). now left. }
      destruct Ha as [<- | Ha]; [reflexivity | ].
      destruct Hb as [<- | Hb]; [reflexivity | ].
      apply str_le_antisym; auto. }
    f_equal. apply IH; auto. now apply Permutation_cons_inv in P.
Qed.

Lemma sorted_unique (xs l : list string) :
  Permutation xs l -> StronglySorted str_le l -> l = sorted xs.
Proof.
  intros P S. apply sorted_arrangement_unique; auto using sorted_StronglySorted.
  apply Permutation_trans with xs;
    [now apply Permutation_sym | apply sorted_Permutation].
Qed.

End SortedFacts.

(** ** The enumerator *)

Module Enumerator.
Import Py Rich Remote Script Audit MonadFacts SortedFacts.

Section WithWorld.
Variable w : World.

Lemma fetch_datastacks_unfold server rest acc l :
  fst (fetch_datastacks w (server :: rest) acc l) =
  match listing w server with
  | inl e => inl e
  | inr listed =>
      fst (fetch_datastacks w rest (acc ++ sorted listed)
             (EGetDatastacks
                (mk_client None (Some server)
                   (match w_CAVEclient w None (Some server) with
                    | inr srv => srv
                    | inl _ => EmptyString
                    end))
              :: ENewClient None (Some server) :: l))
  end.
Proof.
  cbn [fetch_datastacks].
  unfold listing, CAVEclient, get_datastacks, bind, call.
  destruct (w_CAVEclient w None (Some server)) as [e | srv]; [reflexivity | ].
  destruct (w_get_datastacks w _) as [e | listed]; reflexivity.
Qed.

(** The loop returns when every server lists, and then returns the sorted
    listings one after the other, after what was accumulated before. *)
Lemma fetch_datastacks_spec servers :
  forall acc l r,
    fst (fetch_datastacks w servers acc l) = inr r <->
    exists lists,
      Forall2 (fun s listed => listing w s = inr listed) servers lists
      /\ r = (acc ++ List.concat (map sorted lists))%list.
Proof.
  induction servers as [ | s servers IH]; intros acc l r.
  - cbn. split.
    + intros [= <-]. exists []. split; [constructor | now rewrite app_nil_r].
    + intros (lists & F & ->). inversion F; subst. cbn. now rewrite app_nil_r.
  - rewrite fetch_datastacks_unfold. split.
    + destruct (listing w s) as [e | listed] eqn:Hs; [discriminate | ].
      intros H. apply IH in H as (lists & F & ->).
      exists (listed :: lists). split; [now constructor | ].
      cbn. now rewrite app_assoc.
    + intros (lists & F & ->). inversion F as [ | s' listed ss lists' Hs F']; subst.
      rewrite Hs. apply IH. exists lists'. split; [exact F' | ].
      cbn. now rewrite app_assoc.
Qed.

(** The first server that fails to list aborts the enumeration. *)
Lemma fetch_datastacks_raises servers :
  forall acc l e,
    fst (fetch_datastacks w servers acc l) = inl e ->
    exists s, In s servers /\ listing w s = inl e.
Proof.
  induction servers as [ | s servers IH]; intros acc l e; [discriminate | ].
  rewrite fetch_datastacks_unfold.
  destruct (listing w s) as [e' | listed] eqn:Hs.
  - intros [= ->]. exists s. split; [now left | exact Hs].
  - intros H. apply IH in H as (s' & Hin & Hs'). exists s'. split; [now right | exact Hs'].
Qed.

End WithWorld.

End Enumerator.

(** ** The audit loop and its table *)

Module Reporting.
Import Py Datetime Rich Remote Script Audit MonadFacts Checker.

Lemma plain_create_styled_text value sc :
  plain (create_styled_text value sc) = value.
Proof.
  unfold create_styled_text.
  destruct (strip _); reflexivity.
Qed.

(** [str] of an integer determines the integer. *)
Lemma str_int_inj (a b : Z) : str_int a = str_int b -> a = b.
Proof.
  unfold str_int. intros E.
  apply DecimalZ.to_int_inj.
  assert (N : forall z, Z.to_int z <> Decimal.Pos Decimal.Nil
                        /\ Z.to_int z <> Decimal.Neg Decimal.Nil).
  { intros [ | p | p]; cbn; split; try discriminate;
      intros [= H]; now apply DecimalPos.Unsigned.to_uint_nonnil in H. }
  assert (Some (Z.to_int a) = Some (Z.to_int b)) as [= ->]; [ | reflexivity].
  rewrite <- (NilZero.isi (Z.to_int a)), <- (NilZero.isi (Z.to_int b)), E;
    solve [reflexivity | apply N].
Qed.

Section Cells.
Variables (ds srv sver : string) (lv ev : Z) (ts : datetime) (cd : date)
          (success : bool).

Let row := format_row_data ds srv sver lv ev ts cd success.

Lemma cell_datastack : cell col_datastack row = ds.
Proof. apply plain_create_styled_text. Qed.

Lemma cell_server : cell col_server row = srv.
Proof. apply plain_create_styled_text. Qed.

Lemma cell_expected_version : cell col_expected_version row = str_int ev.
Proof. apply plain_create_styled_text. Qed.

Lemma cell_latest_version : cell col_latest_version row = str_int lv.
Proof. apply plain_create_styled_text. Qed.

Lemma cell_days_old :
  cell col_days_old row = str_int (toordinal cd - toordinal (date_of ts)).
Proof. apply plain_create_styled_text. Qed.

Lemma cell_status :
  cell col_status row = if success then "Success" else "Failed".
Proof. subst row. unfold format_row_data. destruct success; reflexivity. Qed.

End Cells.

Section WithWorld.
Variable w : World.
Variable cd : date.

(** One iteration: the client cannot be built and the exception goes up; or
    a fetch raises and the table is left as it was; or a row is added. *)
Lemma audit_datastack_cases t ds l :
  (exists e, client_of w ds = inl e
             /\ fst (audit_datastack w cd t ds l) = inl e)
  \/ (exists c, client_of w ds = inr c /\ fetch_step_raises w c
                /\ fst (audit_datastack w cd t ds l) = inr t)
  \/ (exists row, reported w cd ds row
                  /\ fst (audit_datastack w cd t ds l) = inr (add_row row t)).
Proof.
  unfold audit_datastack, bind.
  pose proof (check_materialization_cases w ds l) as C.
  destruct (check_materialization w ds l) as [r l'].
  cbn [fst] in C.
  destruct C as [(e & Hc & ->) | [(c & Hc & R & ->) | (c & lv & ev & ts & sv & Hc & F & ->)]].
  - left. eauto.
  - right; left. exists c. auto.
  - right; right. eexists. split; [ | reflexivity].
    exists c, lv, ev, ts, sv. auto.
Qed.

Lemma audit_loop_cons ds dss t l :
  audit_loop w cd (ds :: dss) t l =
  match audit_datastack w cd t ds l with
  | (inr t', l') => audit_loop w cd dss t' l'
  | (inl e, l') => (inl e, l')
  end.
Proof. reflexivity. Qed.

Lemma report_rows_length dss rs :
  report_rows w cd dss rs -> (length rs <= length dss)%nat.
Proof. induction 1; cbn; lia. Qed.

Lemma report_rows_In dss rs :
  report_rows w cd dss rs ->
  forall row, In row rs -> exists ds, In ds dss /\ reported w cd ds row.
Proof.
  induction 1 as [ | ds c dss rs Hc R H IH | ds row dss rs Hr H IH];
    intros r Hin.
  - destruct Hin.
  - destruct (IH r Hin) as (d & Hd & Hrep). exists d. split; [now right | exact Hrep].
  - destruct Hin as [<- | Hin].
    + exists ds. split; [now left | exact Hr].
    + destruct (IH r Hin) as (d & Hd & Hrep). exists d. split; [now right | exact Hrep].
Qed.

(** A row names the datastack it was written for. *)
Lemma reported_datastack ds row :
  reported w cd ds row -> cell col_datastack row = ds.
Proof.
  intros (c & lv & ev & ts & sv & _ & _ & ->). apply cell_datastack.
Qed.

Lemma reported_excludes_raise ds row c :
  reported w cd ds row -> client_of w ds = inr c -> fetch_step_raises w c ->
  False.
Proof.
  intros (c' & lv & ev & ts & sv & Hc' & F & _) Hc R.
  rewrite Hc in Hc'. injection Hc' as <-.
  exact (fetched_excludes_raise w c lv ev ts sv F R).
Qed.

(** A datastack whose fetch raises costs the report one row. *)
Lemma report_rows_omitted dss rs :
  report_rows w cd dss rs ->
  forall ds c, In ds dss -> client_of w ds = inr c -> fetch_step_raises w c ->
               (length rs < length dss)%nat.
Proof.
  induction 1 as [ | d c' dss rs Hc' R' H IH | d row dss rs Hr H IH];
    intros ds c Hin Hc R.
  - destruct Hin.
  - apply report_rows_length in H. cbn. lia.
  - destruct Hin as [-> | Hin].
    + destruct (reported_excludes_raise _ _ _ Hr Hc R).
    + specialize (IH ds c Hin Hc R). cbn. lia.
Qed.

Lemma report_rows_total dss :
  (forall ds, In ds dss -> exists c, client_of w ds = inr c) ->
  exists rs, report_rows w cd dss rs.
Proof.
  induction dss as [ | ds dss IH]; intros H.
  - exists []. constructor.
  - destruct IH as (rs & Hrs); [intros d Hd; apply H; now right | ].
    destruct (H ds (or_introl eq_refl)) as (c & Hc).
    destruct (fetch_dichotomy w c) as [R | (lv & ev & ts & sv & F)].
    + exists rs. now apply rr_omit with c.
    + eexists (_ :: rs). apply rr_row; [ | exact Hrs].
      exists c, lv, ev, ts, sv. auto.
Qed.

(** The loop ends with an exception only when some client cannot be built;
    otherwise it appends the rows of the run to the table it was given. *)
Lemma audit_loop_spec dss :
  forall t l,
    match fst (audit_loop w cd dss t l) with
    | inr t' =>
        exists rs, report_rows w cd dss rs
                   /\ t' = mk_Table (title t) (columns t) (rows t ++ rs)
    | inl e => exists ds, In ds dss /\ client_of w ds = inl e
    end.
Proof.
  induction dss as [ | ds dss IH]; intros t l.
  - cbn. exists []. split; [constructor | ].
    rewrite app_nil_r. now destruct t.
  - rewrite audit_loop_cons.
    pose proof (audit_datastack_cases t ds l) as C.
    destruct (audit_datastack w cd t ds l) as [r l']. cbn [fst] in C.
    destruct C as [(e & Hc & ->) | [(c & Hc & R & ->) | (row & Hr & ->)]].
    + cbn. exists ds. split; [now left | exact Hc].
    + specialize (IH t l').
      destruct (fst (audit_loop w cd dss t l')) as [e | t'].
      * destruct IH as (d & Hd & He). exists d. split; [now right | exact He].
      * destruct IH as (rs & Hrs & ->). exists rs. split; [ | reflexivity].
        now apply rr_omit with c.
    + specialize (IH (add_row row t) l').
      destruct (fst (audit_loop w cd dss (add_row row t) l')) as [e | t'].
      * destruct IH as (d & Hd & He). exists d. split; [now right | exact He].
      * destruct IH as (rs & Hrs & ->). exists (row :: rs).
        split; [now apply rr_row | ].
        cbn. now rewrite <- app_assoc.
Qed.

Lemma audit_loop_returns dss t l :
  (forall ds, In ds dss -> exists c, client_of w ds = inr c) ->
  exists t', fst (audit_loop w cd dss t l) = inr t'.
Proof.
  intros H. pose proof (audit_loop_spec dss t l) as S.
  destruct (fst (audit_loop w cd dss t l)) as [e | t']; [ | eauto].
  destruct S as (ds & Hin & He). destruct (H ds Hin) as (c & Hc). congruence.
Qed.

(** A datastack whose fetch raises leaves the loop as if it had not been
    enumerated. *)
Lemma audit_loop_skip pre ds post c :
  client_of w ds = inr c -> fetch_step_raises w c ->
  forall t l,
    fst (audit_loop w cd (pre ++ ds :: post) t l)
    = fst (audit_loop w cd (pre ++ post) t l).
Proof.
  intros Hc R. induction pre as [ | p pre IH]; intros t l.
  - cbn [app]. rewrite audit_loop_cons.
    pose proof (audit_datastack_cases t ds l) as C.
    destruct (audit_datastack w cd t ds l) as [r l']. cbn [fst] in C.
    destruct C as [(e & Hc' & _) | [(c' & _ & _ & ->) | (row & Hr & _)]].
    + congruence.
    + apply li_audit_loop.
    + destruct (reported_excludes_raise _ _ _ Hr Hc R).
  - cbn [app]. rewrite !audit_loop_cons.
    destruct (audit_datastack w cd t p l) as [[e | t'] l']; [reflexivity | apply IH].
Qed.

End WithWorld.

End Reporting.

(** * Properties of the specification *)

Module CheckerClaims.
Import Py Datetime Rich Remote Script Audit Checker Fleet.

(** C1, as stated, fails on an exception of the first step: the client is
    built before the [try] block is entered.  For the datastack [gone] of the
    fleet the construction raises, and [check_materialization] raises the
    same exception instead of returning anything. *)
Lemma client_failure_is_not_caught :
  client_of fleet "gone" = inl (HTTPError "404 datastack not found")
  /\ fst (check_materialization fleet "gone" [])
     = inl (HTTPError "404 datastack not found")
  /\ forall r, fst (check_materialization fleet "gone" []) <> inr r.
Proof.
  split; [reflexivity | split; [reflexivity | ]].
  intros r H. vm_compute in H. discriminate.
Qed.

(** C1 (amended): for every datastack whose client can be built, if any
    exception is raised during the four fetches of the [try] block (active
    versions, versions counting expired ones, the timestamp, the server
    version; an empty version list makes [max] raise), [check_materialization]
    catches it for the whole block and returns the tuple
    [(None, None, None, client.local_server, None)]: none of the fetched
    fields survives. *)
Theorem check_materialization_catches_fetch_failures
    (w : World) (datastack : string) (l : log) (c : client) :
  client_of w datastack = inr c ->
  fetch_step_raises w c ->
  fst (check_materialization w datastack l)
  = inr (None, None, None, local_server c, None).
Proof.
  intros Hc R. exact (check_materialization_sentinel w datastack c l Hc R).
Qed.

Lemma check_materialization_catches_fetch_failures_witness :
  client_of fleet "empty" = inr (local_client "empty")
  /\ fetch_step_raises fleet (local_client "empty")
  /\ fst (check_materialization fleet "empty" [])
     = inr (None, None, None, "https://local.example", None).
Proof.
  assert (Hc : client_of fleet "empty" = inr (local_client "empty"))
    by reflexivity.
  assert (R : fetch_step_raises fleet (local_client "empty"))
    by (right; left; reflexivity).
  split; [exact Hc | split; [exact R | ]].
  exact (check_materialization_catches_fetch_failures
           fleet "empty" [] (local_client "empty") Hc R).
Defined.

(** C6: in every record produced, the expected version is at least the
    latest active version as soon as the versions listed with the expired
    ones include the active ones; each is the maximum of its list. *)
Theorem expected_version_bounds_latest
    (w : World) (datastack : string) (l : log) (c : client)
    (active with_expired : list Z) (lv ev : Z)
    (ts : option datetime) (srv : string) (sv : option string) :
  client_of w datastack = inr c ->
  w_get_versions w c false = inr active ->
  w_get_versions w c true = inr with_expired ->
  incl active with_expired ->
  fst (check_materialization w datastack l) = inr (Some lv, Some ev, ts, srv, sv) ->
  max active = inr lv /\ max with_expired = inr ev /\ lv <= ev.
Proof.
  intros Hc Ha He Hincl Hrun.
  rewrite check_materialization_unfold, Hc, try_unfold, Ha, He in Hrun.
  destruct (max active) as [e | lv'] eqn:Ma; [discriminate | ].
  destruct (max with_expired) as [e | ev'] eqn:Me; [discriminate | ].
  destruct (w_get_timestamp w c lv'); [discriminate | ].
  destruct (w_server_version w c); [discriminate | ].
  injection Hrun as -> -> _ _ _.
  split; [reflexivity | split; [reflexivity | ]].
  apply max_spec in Ma as [Hin _]. apply max_spec in Me as [_ Hall].
  apply Hall, Hincl, Hin.
Qed.

Lemma expected_version_bounds_latest_witness :
  max [3] = inr 3 /\ max [3; 5] = inr 5 /\ 3 <= 5.
Proof.
  apply (expected_version_bounds_latest fleet "ds2" [] (local_client "ds2")
           [3] [3; 5] 3 5
           (Some (mk_datetime day_2024_03_01 8 0 0 0))
           "https://local.example" (Some "4.30.1")).
  - reflexivity.
  - reflexivity.
  - reflexivity.
  - intros x [<- | []]. now left.
  - reflexivity.
Defined.

(** C9, as stated, fails for an input whose client cannot be built: no tuple
    at all is returned for the datastack [gone], so no fourth element
    either. *)
Lemma no_tuple_without_client :
  ~ exists lv ev ts srv sv,
      fst (check_materialization fleet "gone" [ENow])
      = inr (lv, ev, ts, srv, sv).
Proof.
  intros (lv & ev & ts & srv & sv & H). vm_compute in H. discriminate.
Qed.

(** C9 (amended): for every input whose client can be built, whether the
    fetches succeed or fail, [check_materialization] returns a tuple of five
    elements whose fourth element is [client.local_server]; it is there even
    when the four other fields are [None]. *)
Theorem check_materialization_returns_local_server
    (w : World) (datastack : string) (l : log) (c : client) :
  client_of w datastack = inr c ->
  exists lv ev ts sv,
    fst (check_materialization w datastack l)
    = inr (lv, ev, ts, local_server c, sv)
    /\ (fetch_step_raises w c ->
        lv = None /\ ev = None /\ ts = None /\ sv = None)
    /\ (~ fetch_step_raises w c ->
        lv <> None /\ ev <> None /\ ts <> None /\ sv <> None).
Proof.
  intros Hc.
  destruct (fetch_dichotomy w c) as [R | (lv & ev & ts & sv & F)].
  - exists None, None, None, None. split; [ | split].
    + exact (check_materialization_sentinel w datastack c l Hc R).
    + auto.
    + intros N. destruct (N R).
  - exists (Some lv), (Some ev), (Some ts), (Some (str_obj sv)).
    split; [ | split].
    + exact (check_materialization_record w datastack c lv ev ts sv l Hc F).
    + intros R. destruct (fetched_excludes_raise w c lv ev ts sv F R).
    + intros _. repeat split; discriminate.
Qed.

Lemma check_materialization_returns_local_server_witness :
  client_of fleet "ds3" = inr (local_client "ds3")
  /\ exists lv ev ts sv,
       fst (check_materialization fleet "ds3" [])
       = inr (lv, ev, ts, "https://local.example", sv)
       /\ (fetch_step_raises fleet (local_client "ds3") ->
           lv = None /\ ev = None /\ ts = None /\ sv = None)
       /\ (~ fetch_step_raises fleet (local_client "ds3") ->
           lv <> None /\ ev <> None /\ ts <> None /\ sv <> None).
Proof.
  split; [reflexivity | ].
  apply (check_materialization_returns_local_server
           fleet "ds3" [] (local_client "ds3")).
  reflexivity.
Defined.

(** C10: in every tuple [check_materialization] returns, [latest_version],
    [expected_latest_version], [latest_timestamp] and [server_version] are
    all [None] or all not [None]; testing [latest_version] alone therefore
    tells a failed check from a record. *)
Theorem check_materialization_all_or_none
    (w : World) (datastack : string) (l : log)
    (lv ev : option Z) (ts : option datetime) (srv : string)
    (sv : option string) :
  fst (check_materialization w datastack l) = inr (lv, ev, ts, srv, sv) ->
  ((lv = None /\ ev = None /\ ts = None /\ sv = None)
   \/ (exists lv' ev' ts' sv',
         lv = Some lv' /\ ev = Some ev' /\ ts = Some ts' /\ sv = Some sv'))
  /\ (lv = None <-> (ev = None /\ ts = None /\ sv = None))
  /\ (lv <> None <-> (ev <> None /\ ts <> None /\ sv <> None)).
Proof.
  intros H.
  destruct (check_materialization_cases w datastack l)
    as [(e & _ & E) | [(c & _ & _ & E) | (c & lv' & ev' & ts' & sv' & _ & _ & E)]];
    rewrite E in H; [discriminate | | ].
  - injection H as <- <- <- _ <-.
    split; [left; auto | split; split; intros; tauto].
  - injection H as <- <- <- _ <-.
    split; [right; eauto 10 | split; split].
    + discriminate.
    + intros (H & _). discriminate.
    + intros _. repeat split; discriminate.
    + intros _. discriminate.
Qed.

Lemma check_materialization_all_or_none_witness :
  ((Some 3 = None /\ Some 5 = None
    /\ Some (mk_datetime day_2024_03_01 8 0 0 0) = None
    /\ Some "4.30.1" = None)
   \/ (exists lv' ev' ts' sv',
         Some 3 = Some lv' /\ Some 5 = Some ev'
         /\ Some (mk_datetime day_2024_03_01 8 0 0 0) = Some ts'
         /\ Some "4.30.1" = Some sv'))
  /\ (Some 3 = None <->
      (Some 5 = None /\ Some (mk_datetime day_2024_03_01 8 0 0 0) = None
       /\ Some "4.30.1" = None))
  /\ (Some 3 <> None <->
      (Some 5 <> None /\ Some (mk_datetime day_2024_03_01 8 0 0 0) <> None
       /\ Some "4.30.1" <> None)).
Proof.
  apply (check_materialization_all_or_none fleet "ds2" []
           (Some 3) (Some 5) (Some (mk_datetime day_2024_03_01 8 0 0 0))
           "https://local.example" (Some "4.30.1")).
  reflexivity.
Defined.

End CheckerClaims.

Module EnumeratorClaims.
Import Py Rich Remote Script Audit SortedFacts Enumerator Fleet.

(** C4: with a non-empty override list, [get_datastacks_to_check] returns
    that list sorted lexicographically (a permutation of it, in increasing
    order, and the only such list), whatever servers are configured, and
    leaves the log of calls as it found it: nothing was asked of any
    server. *)
Theorem override_is_sorted_without_network
    (w : World) (cfg : Config) (l : log) :
  DATASTACKS_TO_CHECK cfg <> [] ->
  get_datastacks_to_check w cfg l
  = (inr (sorted (DATASTACKS_TO_CHECK cfg)), l)
  /\ Permutation (DATASTACKS_TO_CHECK cfg) (sorted (DATASTACKS_TO_CHECK cfg))
  /\ StronglySorted str_le (sorted (DATASTACKS_TO_CHECK cfg))
  /\ (forall r, Permutation (DATASTACKS_TO_CHECK cfg) r ->
                StronglySorted str_le r ->
                r = sorted (DATASTACKS_TO_CHECK cfg)).
Proof.
  intros N. unfold get_datastacks_to_check.
  destruct (DATASTACKS_TO_CHECK cfg) as [ | d ds] eqn:E; [congruence | ].
  split; [reflexivity | ].
  split; [apply sorted_Permutation | ].
  split; [apply sorted_StronglySorted | ].
  intros r. apply sorted_unique.
Qed.

Lemma override_is_sorted_without_network_witness :
  get_datastacks_to_check fleet (mk_Config ["unreachable"] ["zeta"; "alpha"]) []
  = (inr ["alpha"; "zeta"], []).
Proof.
  apply (override_is_sorted_without_network
           fleet (mk_Config ["unreachable"] ["zeta"; "alpha"]) []).
  discriminate.
Defined.

(** C5: with an empty override list, [get_datastacks_to_check] returns
    exactly when every configured server lists its datastacks, and what it
    returns is the concatenation, in the order of the configured servers, of
    each server's list sorted on its own.  That is not the sorted union:
    servers [A] and [B] of the fleet give [alpha; zeta; beta]. *)
Theorem enumerator_concatenates_sorted_listings
    (w : World) (cfg : Config) (l : log) :
  DATASTACKS_TO_CHECK cfg = [] ->
  (forall r,
     fst (get_datastacks_to_check w cfg l) = inr r <->
     exists lists,
       Forall2 (fun server listed => listing w server = inr listed)
               (SERVERS_TO_CHECK cfg) lists
       /\ r = concat (map sorted lists))
  /\ (exists w' servers r',
        fst (get_datastacks_to_check w' (mk_Config servers []) l) = inr r'
        /\ r' <> sorted r').
Proof.
  intros E. split.
  - intros r. unfold get_datastacks_to_check. rewrite E.
    apply (fetch_datastacks_spec w (SERVERS_TO_CHECK cfg) [] l r).
  - exists fleet, ["A"; "B"], ["alpha"; "zeta"; "beta"].
    split; [reflexivity | ].
    vm_compute. discriminate.
Qed.

Lemma enumerator_concatenates_sorted_listings_witness :
  fst (get_datastacks_to_check fleet (mk_Config ["A"; "B"] []) [])
  = inr (concat (map sorted [["zeta"; "alpha"]; ["beta"]])).
Proof.
  destruct (enumerator_concatenates_sorted_listings
              fleet (mk_Config ["A"; "B"] []) [] eq_refl) as [H _].
  apply H. exists [["zeta"; "alpha"]; ["beta"]].
  split; [ | reflexivity].
  constructor; [reflexivity | ]. constructor; [reflexivity | constructor].
Defined.

End EnumeratorClaims.

Module ReportClaims.
Import Py Datetime Rich Remote Script Audit MonadFacts Checker Reporting Fleet.
Import DatetimeFacts.

(** C2: in any enumerated sequence, a datastack whose check raises at a
    fetch step ends its iteration without an exception and without touching
    the table; the loop then behaves as if that datastack had not been
    enumerated.  When the loop returns, the rows it added are fewer than the
    datastacks enumerated and none of them names that datastack.  The loop
    returns as soon as the client of every other datastack can be built; an
    exception leaving the loop is never one raised by a fetch, only one
    raised while building a client. *)
Theorem failed_fetch_is_dropped_from_report
    (w : World) (current_day : date) (pre post : list string)
    (datastack : string) (c : client) (table : Table) (l : log) :
  client_of w datastack = inr c ->
  fetch_step_raises w c ->
  let dss := pre ++ datastack :: post in
  (forall t l0, fst (audit_datastack w current_day t datastack l0) = inr t)
  /\ fst (audit_loop w current_day dss table l)
     = fst (audit_loop w current_day (pre ++ post) table l)
  /\ (forall table',
        fst (audit_loop w current_day dss table l) = inr table' ->
        exists added,
          rows table' = rows table ++ added
          /\ (length added < length dss)%nat
          /\ forall row, In row added -> cell col_datastack row <> datastack)
  /\ ((forall d, In d (pre ++ post) -> exists c', client_of w d = inr c') ->
      exists table', fst (audit_loop w current_day dss table l) = inr table')
  /\ (forall e,
        fst (audit_loop w current_day dss table l) = inl e ->
        exists d, In d (pre ++ post) /\ client_of w d = inl e).
Proof.
  intros Hc R dss.
  assert (Hin : In datastack dss) by (apply in_elt).
  pose proof (audit_loop_spec w current_day dss table l) as S.
  split; [ | split; [ | split; [ | split]]].
  - intros t l0.
    destruct (audit_datastack_cases w current_day t datastack l0)
      as [(e & Hc' & _) | [(c' & _ & _ & E) | (row & Hr & _)]].
    + congruence.
    + exact E.
    + destruct (reported_excludes_raise w current_day _ _ _ Hr Hc R).
  - apply (audit_loop_skip w current_day pre datastack post c Hc R).
  - intros table' E. rewrite E in S. destruct S as (rs & Hrs & ->).
    exists rs. split; [reflexivity | split].
    + exact (report_rows_omitted w current_day dss rs Hrs datastack c Hin Hc R).
    + intros row Hrow Hname.
      destruct (report_rows_In w current_day dss rs Hrs row Hrow)
        as (d & _ & Hd).
      rewrite (reported_datastack w current_day d row Hd) in Hname. subst d.
      exact (reported_excludes_raise w current_day _ _ _ Hd Hc R).
  - intros Hall. apply audit_loop_returns.
    intros d Hd. unfold dss in Hd. apply in_app_or in Hd.
    destruct Hd as [Hd | [<- | Hd]].
    + apply Hall, in_or_app. now left.
    + now exists c.
    + apply Hall, in_or_app. now right.
  - intros e E. rewrite E in S. destruct S as (d & Hd & He).
    exists d. split; [ | exact He].
    unfold dss in Hd. apply in_app_or in Hd.
    destruct Hd as [Hd | [<- | Hd]].
    + apply in_or_app. now left.
    + congruence.
    + apply in_or_app. now right.
Qed.

Lemma failed_fetch_is_dropped_from_report_witness :
  client_of fleet "ds3" = inr (local_client "ds3")
  /\ fetch_step_raises fleet (local_client "ds3")
  /\ fst (audit_loop fleet day_2024_03_09 (["ds1"] ++ "ds3" :: ["ds2"])
            create_result_table [])
     = fst (audit_loop fleet day_2024_03_09 (["ds1"] ++ ["ds2"])
              create_result_table [])
  /\ exists table',
       fst (audit_loop fleet day_2024_03_09 (["ds1"] ++ "ds3" :: ["ds2"])
              create_result_table [])
       = inr table'.
Proof.
  assert (Hc : client_of fleet "ds3" = inr (local_client "ds3"))
    by reflexivity.
  assert (R : fetch_step_raises fleet (local_client "ds3"))
    by (left; eexists; reflexivity).
  destruct (failed_fetch_is_dropped_from_report
              fleet day_2024_03_09 ["ds1"] ["ds2"] "ds3" (local_client "ds3")
              create_result_table [] Hc R)
    as (_ & Hskip & _ & Hret & _).
  split; [exact Hc | split; [exact R | split; [exact Hskip | ]]].
  apply Hret. intros d [<- | [<- | []]]; eexists; reflexivity.
Defined.

(** C3: every row the audit adds to the report is written for a datastack
    of the sequence from the versions fetched for it, with the success flag
    [latest_version == expected_latest_version]; its Status reads "Success"
    exactly when the two versions are equal (equivalently, when its two
    version cells show the same number) and "Failed" otherwise. *)
Theorem report_status_matches_versions
    (w : World) (current_day : date) (dss : list string)
    (table table' : Table) (l : log) :
  fst (audit_loop w current_day dss table l) = inr table' ->
  exists added,
    rows table' = rows table ++ added
    /\ forall row, In row added ->
         exists ds c lv ev ts sv,
           In ds dss /\ client_of w ds = inr c /\ fetched w c lv ev ts sv
           /\ row = format_row_data ds (local_server c) (str_obj sv) lv ev ts
                                    current_day (lv =? ev)
           /\ (cell col_status row = "Success" <-> lv = ev)
           /\ (cell col_status row = "Failed" <-> lv <> ev)
           /\ (cell col_status row = "Success" <->
               cell col_latest_version row = cell col_expected_version row).
Proof.
  intros E.
  pose proof (audit_loop_spec w current_day dss table l) as S.
  rewrite E in S. destruct S as (rs & Hrs & ->).
  exists rs. split; [reflexivity | ].
  intros row Hrow.
  destruct (report_rows_In w current_day dss rs Hrs row Hrow)
    as (ds & Hds & c & lv & ev & ts & sv & Hc & F & ->).
  exists ds, c, lv, ev, ts, sv.
  rewrite cell_status, cell_latest_version, cell_expected_version.
  repeat (split; [assumption || reflexivity | ]).
  destruct (Z.eqb_spec lv ev) as [Heq | Hne].
  - repeat split; intros; congruence.
  - repeat split; intros H; try congruence; try discriminate.
    apply str_int_inj in H. congruence.
Qed.

Lemma report_status_matches_versions_witness :
  exists table',
    fst (audit_loop fleet day_2024_03_09 ["ds1"; "ds2"; "ds3"]
           create_result_table []) = inr table'
    /\ exists added,
         rows table' = rows create_result_table ++ added
         /\ forall row, In row added ->
              exists ds c lv ev ts sv,
                In ds ["ds1"; "ds2"; "ds3"]
                /\ client_of fleet ds = inr c /\ fetched fleet c lv ev ts sv
                /\ row = format_row_data ds (local_server c) (str_obj sv)
                           lv ev ts day_2024_03_09 (lv =? ev)
                /\ (cell col_status row = "Success" <-> lv = ev)
                /\ (cell col_status row = "Failed" <-> lv <> ev)
                /\ (cell col_status row = "Success" <->
                    cell col_latest_version row
                    = cell col_expected_version row).
Proof.
  eexists. split; [reflexivity | ].
  apply (report_status_matches_versions
           fleet day_2024_03_09 ["ds1"; "ds2"; "ds3"] create_result_table _ []).
  reflexivity.
Defined.

(** C7: the Days Old cell of a row shows
    [(current_day - latest_timestamp.date()).days], which is the difference
    of the two dates' day numbers; it is zero or more exactly when the date
    of the timestamp is not after [current_day], and zero exactly when the
    two dates are the same. *)
Theorem days_old_is_date_difference
    (datastack server sver : string) (lv ev : Z) (ts : datetime)
    (current_day : date) (success : bool) :
  let days_old := days (date_sub current_day (date_of ts)) in
  cell col_days_old
       (format_row_data datastack server sver lv ev ts current_day success)
  = str_int days_old
  /\ days_old = toordinal current_day - toordinal (date_of ts)
  /\ (date_le (date_of ts) current_day = true <-> 0 <= days_old)
  /\ (days_old = 0 <-> date_of ts = current_day).
Proof.
  cbv zeta. split; [apply cell_days_old | ].
  split; [reflexivity | ].
  cbn [days date_sub]. split.
  - rewrite date_le_spec. lia.
  - split.
    + intros H. apply toordinal_inj. lia.
    + intros ->. lia.
Qed.

Lemma network_calls_exclude (added : list event) (e : event) :
  Forall (fun x => is_network_call x = true) added ->
  is_network_call e = false -> ~ In e added.
Proof.
  intros F N Hin. rewrite Forall_forall in F. apply F in Hin. congruence.
Qed.

(** C8: [main] reads the clock once, right after its first [print] and
    before any call to a server, hence before the audit loop; everything it
    does afterwards never reads the clock again, and every row of the table
    it prints has its Days Old computed against the date of that one
    reading. *)
Theorem current_day_is_read_once (w : World) (cfg : Config) (l : log) :
  let current_day := date_of (w_now w (S (length l))) in
  exists added,
    snd (main w cfg l) = added ++ ENow :: EPrint nl :: l
    /\ ~ In ENow added
    /\ (forall t row,
          In (EConsolePrint (RTable t)) added -> In row (rows t) ->
          exists ds srv sver lv ev ts,
            row = format_row_data ds srv sver lv ev ts current_day (lv =? ev)
            /\ cell col_days_old row
               = str_int (toordinal current_day - toordinal (date_of ts)))
    /\ (forall u, fst (main w cfg l) = inr u ->
                  exists t rest, added = EConsolePrint (RTable t) :: rest).
Proof.
  intros current_day.
  destruct (rnc_get_datastacks_to_check w cfg (ENow :: EPrint nl :: l))
    as (ad1 & E1 & N1).
  unfold main, bind, print, now, call, console_print.
  cbn [length]. fold current_day.
  destruct (get_datastacks_to_check w cfg (ENow :: EPrint nl :: l))
    as [[e | dss] l1]; cbn [snd] in E1; subst l1.
  - exists ad1. cbn [fst snd]. split; [reflexivity | ].
    split; [now apply network_calls_exclude | ].
    split; [ | discriminate].
    intros t row Hin. now apply network_calls_exclude in Hin.
  - destruct (rnc_audit_loop w current_day dss create_result_table
                (ad1 ++ ENow :: EPrint nl :: l)) as (ad2 & E2 & N2).
    pose proof (audit_loop_spec w current_day dss create_result_table
                  (ad1 ++ ENow :: EPrint nl :: l)) as S.
    destruct (audit_loop w current_day dss create_result_table
                (ad1 ++ ENow :: EPrint nl :: l)) as [[e | t'] l2];
      cbn [fst snd] in *; subst l2.
    + exists (ad2 ++ ad1). rewrite app_assoc. split; [reflexivity | ].
      assert (F : Forall (fun x => is_network_call x = true) (ad2 ++ ad1))
        by (apply Forall_app; now split).
      split; [now apply network_calls_exclude | ].
      split; [ | discriminate].
      intros t row Hin. now apply network_calls_exclude in Hin.
    + exists (EConsolePrint (RTable t') :: EConsolePrint (RStr nl) :: ad2 ++ ad1).
      cbn [app]. rewrite app_assoc. split; [reflexivity | ].
      assert (F : Forall (fun x => is_network_call x = true) (ad2 ++ ad1))
        by (apply Forall_app; now split).
      split; [ | split].
      * intros [H | [H | H]]; try discriminate.
        now apply network_calls_exclude in H.
      * intros t row [H | [H | H]] Hrow; try discriminate.
        -- injection H as <-. destruct S as (rs & Hrs & ->).
           cbn [rows create_result_table app] in Hrow.
           destruct (report_rows_In w current_day dss rs Hrs row Hrow)
             as (ds & _ & c & lv & ev & ts & sv & _ & _ & ->).
           exists ds, (local_server c), (str_obj sv), lv, ev, ts.
           split; [reflexivity | apply cell_days_old].
        -- now apply network_calls_exclude in H.
      * intros _ _. eauto.
Qed.

End ReportClaims.

(** ** The two scenarios of the specification, run on the fleet *)

Module Scenarios.
Import Py Datetime Rich Remote Script Audit Fleet.

(** The enumerator yields [ds1; ds2; ds3]; [ds1] is up to date and checked
    on the day of its timestamp, [ds2] lags, [ds3] raises on its first
    fetch: the table printed has two rows, for [ds1] and [ds2] in that
    order. *)
Example three_datastacks_two_rows :
  match main fleet (mk_Config [] ["ds1"; "ds2"; "ds3"]) [] with
  | (inr tt, EConsolePrint (RTable t) :: _) =>
      map (fun row => (cell col_datastack row, cell col_days_old row,
                       cell col_status row)) (rows t)
      = [("ds1", "0", "Success"); ("ds2", "8", "Failed")]
  | _ => False
  end.
Proof. vm_compute. reflexivity. Qed.

(** The override [zeta; alpha] with no server configured. *)
Example override_without_servers :
  get_datastacks_to_check fleet (mk_Config [] ["zeta"; "alpha"]) []
  = (inr ["alpha"; "zeta"], []).
Proof. reflexivity. Qed.

(** With the script's own configuration and servers that do not answer, the
    enumeration fails and [main] stops there. *)
Example unreachable_servers_abort :
  fst (main fleet source_config []) = inl (HTTPError "connection refused").
Proof. reflexivity. Qed.

End Scenarios.

(** ** Styles *)

Module StyleProps.
Import Py Datetime Rich Remote Script Audit Observe Reporting.










End StyleProps.

(** ** The table of a run *)

Module TableProps.
Import Py Datetime Rich Remote Script Audit Observe MonadFacts Checker.
Import Reporting Fleet.

Lemma check_ok_reported w cd ds row : reported w cd ds row -> check_ok w ds = true.
Proof.
  intros (c & lv & ev & ts & sv & Hc & F & _). unfold check_ok.
  now rewrite (check_materialization_record w ds c lv ev ts sv [] Hc F).
Qed.

Lemma check_ok_raises w ds c :
  client_of w ds = inr c -> fetch_step_raises w c -> check_ok w ds = false.
Proof.
  intros Hc R. unfold check_ok.
  now rewrite (check_materialization_sentinel w ds c [] Hc R).
Qed.

Lemma report_rows_filter w cd dss rs :
  report_rows w cd dss rs ->
  map (cell col_datastack) rs = filter (check_ok w) dss.
Proof.
  induction 1 as [ | ds c dss rs Hc R H IH | ds row dss rs Hr H IH]; cbn.
  - reflexivity.
  - now rewrite (check_ok_raises w ds c Hc R).
  - rewrite (check_ok_reported w cd ds row Hr). cbn.
    now rewrite IH, (reported_datastack w cd ds row Hr).
Qed.

Lemma reported_length w cd ds row : reported w cd ds row -> length row = 8%nat.
Proof. intros (c & lv & ev & ts & sv & _ & _ & ->). reflexivity. Qed.

(** X1: the audit loop only appends rows: the table it returns has the
    title and the columns of the table it was given, the earlier rows first,
    and every row it adds has eight cells, one for each column of
    [TABLE_COLUMNS], which are the columns of [create_result_table]. *)
Theorem audit_rows_fit_columns
    (w : World) (current_day : date) (dss : list string)
    (table table' : Table) (l : log) :
  fst (audit_loop w current_day dss table l) = inr table' ->
  title table' = title table
  /\ columns table' = columns table
  /\ (exists added,
        rows table' = rows table ++ added
        /\ Forall (fun row => length row = length TABLE_COLUMNS) added)
  /\ columns create_result_table = TABLE_COLUMNS
  /\ rows create_result_table = [].
Proof.
  intros E.
  pose proof (audit_loop_spec w current_day dss table l) as S.
  rewrite E in S. destruct S as (rs & Hrs & ->). cbn.
  repeat split; try reflexivity.
  exists rs. split; [reflexivity | ].
  rewrite Forall_forall. intros row Hrow.
  destruct (report_rows_In w current_day dss rs Hrs row Hrow) as (d & _ & Hd).
  exact (reported_length w current_day d row Hd).
Qed.

Lemma audit_rows_fit_columns_witness :
  exists table',
    fst (audit_loop fleet day_2024_03_09 ["ds1"; "empty"; "ds2"]
           create_result_table []) = inr table'
    /\ title table' = title create_result_table
    /\ columns table' = columns create_result_table
    /\ (exists added,
          rows table' = rows create_result_table ++ added
          /\ Forall (fun row => length row = length TABLE_COLUMNS) added)
    /\ columns create_result_table = TABLE_COLUMNS
    /\ rows create_result_table = [].
Proof.
  eexists. split; [reflexivity | ].
  apply (audit_rows_fit_columns
           fleet day_2024_03_09 ["ds1"; "empty"; "ds2"] create_result_table _ []).
  reflexivity.
Defined.

(** X4: the rows the loop adds are in enumeration order, one for each
    enumerated datastack whose check goes through, duplicates included: the
    Datastack cells of the added rows are the enumerated sequence with the
    failed checks filtered out. *)
Theorem report_keeps_enumeration_order
    (w : World) (current_day : date) (dss : list string)
    (table table' : Table) (l : log) :
  fst (audit_loop w current_day dss table l) = inr table' ->
  exists added,
    rows table' = rows table ++ added
    /\ map (cell col_datastack) added = filter (check_ok w) dss
    /\ (length added + length (filter (fun d => negb (check_ok w d)) dss)
        = length dss)%nat.
Proof.
  intros E.
  pose proof (audit_loop_spec w current_day dss table l) as S.
  rewrite E in S. destruct S as (rs & Hrs & ->).
  exists rs. split; [reflexivity | ].
  pose proof (report_rows_filter w current_day dss rs Hrs) as F.
  split; [exact F | ].
  rewrite <- (length_map (cell col_datastack) rs), F.
  clear. induction dss as [ | d dss IH]; cbn; [reflexivity | ].
  destruct (check_ok w d); cbn; lia.
Qed.

Lemma report_keeps_enumeration_order_witness :
  exists table',
    fst (audit_loop fleet day_2024_03_09 ["ds2"; "ds3"; "ds1"; "ds2"]
           create_result_table []) = inr table'
    /\ exists added,
         rows table' = rows create_result_table ++ added
         /\ map (cell col_datastack) added
            = filter (check_ok fleet) ["ds2"; "ds3"; "ds1"; "ds2"]
         /\ (length added
             + length (filter (fun d => negb (check_ok fleet d))
                         ["ds2"; "ds3"; "ds1"; "ds2"])
             = length ["ds2"; "ds3"; "ds1"; "ds2"])%nat.
Proof.
  eexists. split; [reflexivity | ].
  apply (report_keeps_enumeration_order
           fleet day_2024_03_09 ["ds2"; "ds3"; "ds1"; "ds2"]
           create_result_table _ []).
  reflexivity.
Defined.

End TableProps.

(** ** The calls a run makes *)

Module CallProps.
Import Py Datetime Rich Remote Script Audit Observe MonadFacts Checker.
Import Reporting Fleet.

Lemma check_materialization_log w ds l :
  snd (check_materialization w ds l)
  = rev (upto_first (step_fails w) (planned_calls w ds)) ++ l.
Proof.
  unfold check_materialization, check_materialization_try, planned_calls,
    CAVEclient, get_versions, get_timestamp, server_version, try_except,
    bind, call, lift, ret.
  cbn [upto_first step_fails].
  destruct (w_CAVEclient w (Some ds) None) as [e | srv]; [reflexivity | ].
  destruct (w_get_versions w _ false) as [e | [ | v vs]];
    [reflexivity | reflexivity | ].
  cbn [max].
  destruct (w_get_versions w _ true) as [e | [ | v' vs']];
    [reflexivity | reflexivity | ].
  cbn [max].
  destruct (w_get_timestamp w _ _) as [e | ts]; [reflexivity | ].
  destruct (w_server_version w _) as [e | sv]; reflexivity.
Qed.

Lemma audit_datastack_log w cd t ds l :
  snd (audit_datastack w cd t ds l) = snd (check_materialization w ds l).
Proof.
  unfold audit_datastack, bind.
  destruct (check_materialization w ds l)
    as [[e | [[[[[lv | ] [ev | ]] [ts | ]] srv] [sv | ]]] l'];
    reflexivity.
Qed.

Lemma upto_first_length {A} (p : A -> bool) (xs : list A) :
  (length (upto_first p xs) <= length xs)%nat.
Proof.
  induction xs as [ | x xs IH]; cbn; [lia | ].
  destruct (p x); cbn; lia.
Qed.

(** A check builds one client, first, and makes no more than five calls. *)
Lemma check_calls_shape w ds :
  exists rest,
    upto_first (step_fails w) (planned_calls w ds)
    = ENewClient (Some ds) None :: rest
    /\ filter is_new_client rest = []
    /\ (length rest <= 4)%nat.
Proof.
  unfold planned_calls. cbn [upto_first].
  destruct (step_fails w (ENewClient (Some ds) None)).
  { exists []. repeat split; cbn; lia. }
  eexists. split; [reflexivity | ].
  repeat match goal with
         | |- context [if ?b then _ else _] => destruct b
         end; cbn; split; solve [reflexivity | lia].
Qed.

(** The log of the loop: the calls of the checks it ran, one check after the
    other; it ran them all when it returns. *)
Lemma audit_loop_log w cd dss :
  forall t l,
    exists k,
      (k <= length dss)%nat
      /\ snd (audit_loop w cd dss t l)
         = rev (flat_map (fun d => upto_first (step_fails w) (planned_calls w d))
                         (firstn k dss)) ++ l
      /\ (forall t', fst (audit_loop w cd dss t l) = inr t' -> k = length dss).
Proof.
  induction dss as [ | ds dss IH]; intros t l.
  - exists 0%nat. cbn. repeat split; auto.
  - rewrite audit_loop_cons.
    pose proof (audit_datastack_log w cd t ds l) as L.
    rewrite check_materialization_log in L.
    destruct (audit_datastack w cd t ds l) as [[e | t1] l1];
      cbn [snd] in L; subst l1.
    + exists 1%nat. cbn [firstn flat_map length].
      rewrite app_nil_r. split; [lia | split; [reflexivity | discriminate]].
    + destruct (IH t1 (rev (upto_first (step_fails w) (planned_calls w ds)) ++ l))
        as (k & Hk & Hlog & Hret).
      exists (S k). cbn [firstn flat_map length].
      split; [lia | split].
      * rewrite Hlog, rev_app_distr, app_assoc. reflexivity.
      * intros t' E. f_equal. exact (Hret t' E).
Qed.

(** X5: a check makes its calls in one fixed order (build the client, list
    the active versions, list the versions with the expired ones, ask the
    timestamp of the largest active version, ask the server version) and
    stops right after the first step that raises: nothing is retried and
    nothing is asked after a failure.  It always tries to build the client,
    and makes five calls at most. *)
Theorem check_stops_at_first_failure (w : World) (datastack : string) (l : log) :
  snd (check_materialization w datastack l)
  = rev (upto_first (step_fails w) (planned_calls w datastack)) ++ l
  /\ (1 <= length (upto_first (step_fails w) (planned_calls w datastack)) <= 5)%nat
  /\ (check_ok w datastack = true ->
      upto_first (step_fails w) (planned_calls w datastack)
      = planned_calls w datastack).
Proof.
  split; [apply check_materialization_log | split].
  - destruct (check_calls_shape w datastack) as (rest & -> & _ & Hlen).
    cbn. lia.
  - unfold check_ok. rewrite check_materialization_unfold.
    unfold planned_calls, client_of. cbn [upto_first step_fails].
    destruct (w_CAVEclient w (Some datastack) None) as [e | srv];
      [discriminate | ].
    rewrite try_unfold.
    destruct (w_get_versions w _ false) as [e | [ | v vs]];
      [discriminate | discriminate | ].
    cbn [max].
    destruct (w_get_versions w _ true) as [e | [ | v' vs']];
      [discriminate | discriminate | ].
    cbn [max].
    destruct (w_get_timestamp w _ _) as [e | ts]; [discriminate | ].
    destruct (w_server_version w _) as [e | sv]; [discriminate | reflexivity].
Qed.

(** X10: the calls of the audit loop are the calls of the checks it runs,
    one check after the other in enumeration order; so the loop builds one
    client for each datastack it reaches, makes five calls at most per
    datastack, and when it returns it has reached every enumerated
    datastack. *)
Theorem audit_loop_calls (w : World) (current_day : date)
    (dss : list string) (table : Table) (l : log) :
  exists k added,
    (k <= length dss)%nat
    /\ snd (audit_loop w current_day dss table l) = rev added ++ l
    /\ added = flat_map (fun d => upto_first (step_fails w) (planned_calls w d))
                        (firstn k dss)
    /\ length (filter is_new_client added) = k
    /\ (length added <= 5 * k)%nat
    /\ (forall table',
          fst (audit_loop w current_day dss table l) = inr table' ->
          k = length dss).
Proof.
  destruct (audit_loop_log w current_day dss table l) as (k & Hk & Hlog & Hret).
  exists k. eexists. split; [exact Hk | split; [exact Hlog | ]].
  split; [reflexivity | split; [ | split; [ | exact Hret]]].
  - clear Hlog Hret. revert k Hk.
    induction dss as [ | d dss IH]; intros [ | k] Hk; cbn in Hk;
      try reflexivity; try lia.
    cbn [firstn flat_map].
    destruct (check_calls_shape w d) as (rest & -> & Hf & _).
    cbn [app filter is_new_client length].
    rewrite filter_app, Hf. cbn [app]. f_equal. apply IH. lia.
  - clear. revert k. induction dss as [ | d dss IH]; intros [ | k];
      cbn [firstn flat_map length]; try lia.
    destruct (check_calls_shape w d) as (rest & -> & _ & Hlen).
    rewrite length_app. specialize (IH k). cbn [length]. lia.
Qed.

End CallProps.

(** ** Enumeration failures and the outcome of [main] *)

Module RunProps.
Import Py Datetime Rich Remote Script Audit Observe MonadFacts SortedFacts.
Import Checker Enumerator Reporting TableProps Fleet.

Lemma li_fetch_datastacks w servers :
  forall acc, log_independent (fetch_datastacks w servers acc).
Proof.
  induction servers as [ | s servers IH]; intros acc; cbn.
  - apply li_ret.
  - unfold CAVEclient, get_datastacks.
    apply li_bind; [apply li_call | intros c].
    apply li_bind; [apply li_call | intros listed]. apply IH.
Qed.

Lemma li_get_datastacks_to_check w cfg :
  log_independent (get_datastacks_to_check w cfg).
Proof.
  unfold get_datastacks_to_check.
  destruct (DATASTACKS_TO_CHECK cfg); [apply li_fetch_datastacks | apply li_ret].
Qed.

(** When the loop over the servers raises, the servers before the failing
    one all listed. *)
Lemma fetch_datastacks_raises_split w servers :
  forall acc l e,
    fst (fetch_datastacks w servers acc l) = inl e ->
    exists pre s post,
      servers = pre ++ s :: post
      /\ (forall s', In s' pre -> exists listed, listing w s' = inr listed)
      /\ listing w s = inl e.
Proof.
  induction servers as [ | s servers IH]; intros acc l e; [discriminate | ].
  rewrite fetch_datastacks_unfold.
  destruct (listing w s) as [e' | listed] eqn:Hs.
  - intros [= ->]. exists [], s, servers.
    split; [reflexivity | split; [intros s' [] | exact Hs]].
  - intros H. apply IH in H as (pre & s0 & post & -> & Hpre & Hs0).
    exists (s :: pre), s0, post.
    split; [reflexivity | split; [ | exact Hs0]].
    intros s' [<- | Hin]; [eauto | now apply Hpre].
Qed.

Lemma fetch_datastacks_cons w s rest acc l :
  fetch_datastacks w (s :: rest) acc l =
  match w_CAVEclient w None (Some s) with
  | inl e => (inl e, ENewClient None (Some s) :: l)
  | inr srv =>
      match w_get_datastacks w (mk_client None (Some s) srv) with
      | inl e =>
          (inl e, EGetDatastacks (mk_client None (Some s) srv)
                  :: ENewClient None (Some s) :: l)
      | inr listed =>
          fetch_datastacks w rest (acc ++ sorted listed)
            (EGetDatastacks (mk_client None (Some s) srv)
             :: ENewClient None (Some s) :: l)
      end
  end.
Proof.
  cbn [fetch_datastacks]. unfold CAVEclient, get_datastacks, bind, call.
  destruct (w_CAVEclient w None (Some s)) as [e | srv]; [reflexivity | ].
  destruct (w_get_datastacks w _) as [e | listed]; reflexivity.
Qed.

(** The loop over the servers stops at the first server that does not list:
    it raises that server's exception, and has called that server and the
    ones before it only. *)
Lemma fetch_datastacks_first_failure w pre :
  forall acc l s post e,
    (forall s', In s' pre -> exists listed, listing w s' = inr listed) ->
    listing w s = inl e ->
    fst (fetch_datastacks w (pre ++ s :: post) acc l) = inl e
    /\ exists added,
         snd (fetch_datastacks w (pre ++ s :: post) acc l) = added ++ l
         /\ forall ev, In ev added ->
              exists s', In s' (pre ++ [s]) /\ event_server ev = Some s'.
Proof.
  induction pre as [ | p pre IH]; intros acc l s post e Hpre Hs.
  - cbn [app]. rewrite fetch_datastacks_cons. unfold listing in Hs.
    destruct (w_CAVEclient w None (Some s)) as [e' | srv].
    + injection Hs as ->. split; [reflexivity | ].
      exists [ENewClient None (Some s)]. split; [reflexivity | ].
      intros ev [<- | []]. exists s. split; [now left | reflexivity].
    + rewrite Hs. split; [reflexivity | ].
      eexists [_; _]. split; [reflexivity | ].
      intros ev [<- | [<- | []]]; exists s; (split; [now left | reflexivity]).
  - destruct (Hpre p (or_introl eq_refl)) as (listed & Hp).
    cbn [app]. rewrite fetch_datastacks_cons. unfold listing in Hp.
    destruct (w_CAVEclient w None (Some p)) as [e' | srv]; [discriminate | ].
    rewrite Hp.
    destruct (IH (acc ++ sorted listed)
                (EGetDatastacks (mk_client None (Some p) srv)
                 :: ENewClient None (Some p) :: l) s post e)
      as (Hfst & added & Hsnd & Hev);
      [intros s' Hs'; apply Hpre; now right | exact Hs | ].
    split; [exact Hfst | ].
    exists (added ++ [EGetDatastacks (mk_client None (Some p) srv);
                      ENewClient None (Some p)]).
    split; [rewrite Hsnd, <- app_assoc; reflexivity | ].
    intros ev Hin. apply in_app_or in Hin. destruct Hin as [Hin | Hin].
    + destruct (Hev ev Hin) as (s' & Hs' & E).
      exists s'. split; [now right | exact E].
    + exists p. split; [now left | ].
      destruct Hin as [<- | [<- | []]]; reflexivity.
Qed.

Lemma report_rows_clients w cd dss rs :
  report_rows w cd dss rs ->
  forall ds, In ds dss -> exists c, client_of w ds = inr c.
Proof.
  induction 1 as [ | d c dss rs Hc R H IH | d row dss rs Hr H IH];
    intros ds Hin.
  - destruct Hin.
  - destruct Hin as [<- | Hin]; [eauto | now apply IH].
  - destruct Hin as [<- | Hin]; [ | now apply IH].
    destruct Hr as (c & _ & _ & _ & _ & Hc & _). eauto.
Qed.

(** [main], one step after the other. *)
Lemma main_unfold w cfg l :
  main w cfg l =
  match get_datastacks_to_check w cfg (ENow :: EPrint nl :: l) with
  | (inl e, l1) => (inl e, l1)
  | (inr dss, l1) =>
      match audit_loop w (date_of (w_now w (S (length l)))) dss
                       create_result_table l1 with
      | (inl e, l2) => (inl e, l2)
      | (inr t, l2) =>
          (inr tt, EConsolePrint (RTable t) :: EConsolePrint (RStr nl) :: l2)
      end
  end.
Proof.
  unfold main, bind, print, now, console_print, call. cbn [length].
  destruct (get_datastacks_to_check w cfg _) as [[e | dss] l1]; [reflexivity | ].
  destruct (audit_loop w _ dss create_result_table l1) as [[e | t] l2];
    reflexivity.
Qed.

(** X6: with an empty override, the enumerator raises exactly when some
    configured server does not list its datastacks (its client cannot be
    built, or the listing call fails); the exception is that of the first
    such server in configured order, and the calls made concern that server
    and the servers before it only: the servers after it are never
    contacted. *)
Theorem enumeration_stops_at_first_failure
    (w : World) (cfg : Config) (l : log) (e : exn) :
  DATASTACKS_TO_CHECK cfg = [] ->
  (fst (get_datastacks_to_check w cfg l) = inl e <->
   exists pre s post,
     SERVERS_TO_CHECK cfg = pre ++ s :: post
     /\ (forall s', In s' pre -> exists listed, listing w s' = inr listed)
     /\ listing w s = inl e)
  /\ (forall pre s post,
        SERVERS_TO_CHECK cfg = pre ++ s :: post ->
        (forall s', In s' pre -> exists listed, listing w s' = inr listed) ->
        listing w s = inl e ->
        exists added,
          snd (get_datastacks_to_check w cfg l) = added ++ l
          /\ forall ev, In ev added ->
               exists s', In s' (pre ++ [s]) /\ event_server ev = Some s').
Proof.
  intros E. unfold get_datastacks_to_check. rewrite E. split; [split | ].
  - apply fetch_datastacks_raises_split.
  - intros (pre & s & post & -> & Hpre & Hs).
    now apply fetch_datastacks_first_failure.
  - intros pre s post -> Hpre Hs.
    now apply (fetch_datastacks_first_failure w pre [] l s post e).
Qed.

Lemma enumeration_stops_at_first_failure_witness :
  fst (get_datastacks_to_check fleet (mk_Config ["A"; "down"; "B"] []) [])
  = inl (HTTPError "connection refused").
Proof.
  destruct (enumeration_stops_at_first_failure
              fleet (mk_Config ["A"; "down"; "B"] []) []
              (HTTPError "connection refused") eq_refl) as [[_ H] _].
  apply H. exists ["A"], "down", ["B"].
  split; [reflexivity | split; [ | reflexivity]].
  intros s' [<- | []]. eexists. reflexivity.
Defined.

(** X9: with a non-empty override, the order in which the override is
    written does not matter and no entry is dropped: two overrides that are
    rearrangements of each other give the same list, whatever the servers
    and their state, and the list is as long as the override (duplicates are
    kept). *)
Theorem override_order_is_irrelevant
    (w1 w2 : World) (cfg1 cfg2 : Config) (l1 l2 : log) :
  DATASTACKS_TO_CHECK cfg1 <> [] ->
  Permutation (DATASTACKS_TO_CHECK cfg1) (DATASTACKS_TO_CHECK cfg2) ->
  fst (get_datastacks_to_check w1 cfg1 l1)
  = fst (get_datastacks_to_check w2 cfg2 l2)
  /\ exists r, fst (get_datastacks_to_check w1 cfg1 l1) = inr r
               /\ length r = length (DATASTACKS_TO_CHECK cfg1).
Proof.
  intros N P. unfold get_datastacks_to_check.
  destruct (DATASTACKS_TO_CHECK cfg1) as [ | a o1] eqn:E1; [congruence | ].
  destruct (DATASTACKS_TO_CHECK cfg2) as [ | b o2] eqn:E2.
  { apply Permutation_sym, Permutation_nil in P. discriminate. }
  cbn [fst ret]. split.
  - f_equal. symmetry. apply sorted_unique.
    + apply Permutation_trans with (b :: o2);
        [exact P | apply sorted_Permutation].
    + apply sorted_StronglySorted.
  - eexists. split; [reflexivity | ].
    symmetry. apply Permutation_length, sorted_Permutation.
Qed.

Lemma override_order_is_irrelevant_witness :
  fst (get_datastacks_to_check fleet (mk_Config [] ["b"; "a"; "b"]) [])
  = fst (get_datastacks_to_check fleet (mk_Config ["A"] ["b"; "b"; "a"]) [ENow]).
Proof.
  apply (override_order_is_irrelevant fleet fleet
           (mk_Config [] ["b"; "a"; "b"]) (mk_Config ["A"] ["b"; "b"; "a"])
           [] [ENow]).
  - discriminate.
  - cbn. apply perm_skip, perm_swap.
Defined.

(** X7: when [main] raises, the exception is the enumerator's or that of
    building the client of an enumerated datastack, and nothing has been
    printed on the console: after reading the clock [main] has only made
    network calls, so no partial table is ever shown. *)
Theorem main_failure_prints_no_table
    (w : World) (cfg : Config) (l : log) (e : exn) :
  fst (main w cfg l) = inl e ->
  (fst (get_datastacks_to_check w cfg []) = inl e
   \/ exists dss ds,
        fst (get_datastacks_to_check w cfg []) = inr dss
        /\ In ds dss /\ client_of w ds = inl e)
  /\ exists added,
       snd (main w cfg l) = added ++ ENow :: EPrint nl :: l
       /\ Forall (fun ev => is_network_call ev = true) added.
Proof.
  rewrite main_unfold.
  pose proof (li_get_datastacks_to_check w cfg (ENow :: EPrint nl :: l) [])
    as Hli.
  destruct (rnc_get_datastacks_to_check w cfg (ENow :: EPrint nl :: l))
    as (ad1 & E1 & N1).
  destruct (get_datastacks_to_check w cfg (ENow :: EPrint nl :: l))
    as [[e1 | dss] l1]; cbn [fst snd] in *; subst l1.
  - intros [= ->]. split; [left; now symmetry | ]. exists ad1. now split.
  - set (cd := date_of (w_now w (S (length l)))).
    pose proof (audit_loop_spec w cd dss create_result_table
                  (ad1 ++ ENow :: EPrint nl :: l)) as S.
    destruct (rnc_audit_loop w cd dss create_result_table
                (ad1 ++ ENow :: EPrint nl :: l)) as (ad2 & E2 & N2).
    destruct (audit_loop w cd dss create_result_table
                (ad1 ++ ENow :: EPrint nl :: l)) as [[e2 | t] l2];
      cbn [fst snd] in *; subst l2; [ | discriminate].
    intros [= ->]. destruct S as (ds & Hin & Hc). split.
    + right. exists dss, ds. split; [now symmetry | now split].
    + exists (ad2 ++ ad1). rewrite app_assoc. split; [reflexivity | ].
      apply Forall_app. now split.
Qed.

Lemma main_failure_prints_no_table_witness :
  exists added,
    snd (main fleet (mk_Config [] ["ds1"; "gone"; "ds2"]) [])
    = added ++ ENow :: EPrint nl :: []
    /\ Forall (fun ev => is_network_call ev = true) added.
Proof.
  apply (main_failure_prints_no_table
           fleet (mk_Config [] ["ds1"; "gone"; "ds2"]) []
           (HTTPError "404 datastack not found")).
  reflexivity.
Defined.

(** X8: [main] returns exactly when the enumeration succeeds and the client
    of every enumerated datastack can be built; failing fetches never stop
    it.  The last thing it does is then to print a line feed and the table:
    the columns are those of [TABLE_COLUMNS], and the rows name, in
    enumeration order, the datastacks whose check went through (none when
    nothing is enumerated). *)
Theorem main_returns_iff (w : World) (cfg : Config) (l : log) :
  (fst (main w cfg l) = inr tt <->
   exists dss,
     fst (get_datastacks_to_check w cfg []) = inr dss
     /\ forall ds, In ds dss -> exists c, client_of w ds = inr c)
  /\ (forall dss,
        fst (main w cfg l) = inr tt ->
        fst (get_datastacks_to_check w cfg []) = inr dss ->
        exists t rest,
          snd (main w cfg l)
          = EConsolePrint (RTable t) :: EConsolePrint (RStr nl) :: rest
          /\ columns t = TABLE_COLUMNS
          /\ map (cell col_datastack) (rows t) = filter (check_ok w) dss).
Proof.
  rewrite main_unfold.
  pose proof (li_get_datastacks_to_check w cfg (ENow :: EPrint nl :: l) [])
    as Hli.
  destruct (get_datastacks_to_check w cfg (ENow :: EPrint nl :: l))
    as [[e1 | dss] l1]; cbn [fst snd] in *.
  - split; [split; [discriminate | ] | discriminate].
    intros (dss & H & _). congruence.
  - set (cd := date_of (w_now w (S (length l)))).
    pose proof (audit_loop_spec w cd dss create_result_table l1) as S.
    pose proof (audit_loop_returns w cd dss create_result_table l1) as R.
    destruct (audit_loop w cd dss create_result_table l1) as [[e2 | t] l2];
      cbn [fst snd] in *.
    + split; [split; [discriminate | ] | discriminate].
      intros (dss' & H & Hall).
      assert (dss' = dss) as -> by congruence.
      destruct (R Hall) as (t' & Ht'). discriminate.
    + destruct S as (rs & Hrs & ->). split; [split; [ | reflexivity] | ].
      * intros _. exists dss. split; [now symmetry | ].
        exact (report_rows_clients w cd dss rs Hrs).
      * intros dss' _ H. assert (dss' = dss) as -> by congruence.
        do 2 eexists. split; [reflexivity | ]. split; [reflexivity | ].
        cbn [rows create_result_table app].
        exact (report_rows_filter w cd dss rs Hrs).
Qed.

End RunProps.

(** ** Cells and headers *)

Module LayoutProps.
Import Py Datetime Rich Remote Script Audit Observe Reporting.

(** X11: the cells of a row line up with the headers of the table: although
    [format_row_data] takes the latest version before the expected one, the
    cell under "Expected Version" shows the expected version and the cell
    under "Latest Version" the latest one, and so on for the eight columns
    of the table [create_result_table] builds. *)
Theorem cells_sit_under_their_headers
    (datastack server sver : string) (lv ev : Z) (ts : datetime)
    (current_day : date) (success : bool) :
  combine (map header (columns create_result_table))
          (map plain (format_row_data datastack server sver lv ev ts
                                      current_day success))
  = [ ("Datastack", datastack);
      ("Server", server);
      ("Server Version", sver);
      ("Expected Version", str_int ev);
      ("Latest Version", str_int lv);
      ("Latest Timestamp", strftime_Ymd (date_of ts));
      ("Days Old", str_int (days (date_sub current_day (date_of ts))));
      ("Status", if success then "Success" else "Failed") ].
Proof.
  unfold format_row_data. cbn [map].
  rewrite !plain_create_styled_text. reflexivity.
Qed.

End LayoutProps.
